(** * Federated remote hooks: the subscription registry and its clients

    A shallow embedding of [src/RemoteHookProvider.tsx] (the Registry Store,
    the Argument Channel, the AvailableHooks map and the [HookExecutor]
    component) and of the consumer hook [useRemoteHook], together with the
    properties the specification states about them.

    Conventions of the embedding.
    - The three stores are JavaScript objects used as maps from the id
      string; they are [gmap string _].  Ids are UUID strings, so the keys
      inherited from [Object.prototype] are out of the picture.
    - Every operation is a computation in the monad [M]: it reads and writes
      the stores, may throw, and emits the events an observer sees (console
      output and invocations of the callbacks handed to the stores).
    - Callbacks are first-class values of the host; they are named by an
      identity and the host decides whether an invocation throws.  They do
      not re-enter the stores while they run.
    - [setAvailableHooks (prev => ...)] queues an updater; updaters are applied
      in the order they were queued, so the map is updated in place. *)

From stdpp Require Import base option list gmap strings pretty.
From Stdlib Require Import ZArith.

Local Open Scope string_scope.
Local Open Scope list_scope.

(** ** JavaScript values *)

Module JS.

(** The values that travel through the stores.  Objects, arrays and
    functions are known by their identity only. *)
Inductive Value : Type :=
| VUndefined
| VNull
| VBool (b : bool)
| VNum (n : Z)
| VNaN
| VStr (s : string)
| VRef (r : nat)
| VError (message : string).

#[global] Instance Value_eq_dec : EqDecision Value.
Proof. solve_decision. Defined.

(** [a === b] *)
Definition strict_eq (a b : Value) : bool :=
  match a, b with
  | VNaN, _ | _, VNaN => false
  | _, _ => bool_decide (a = b)
  end.

(** [a !== b] *)
Definition strict_ne (a b : Value) : bool := negb (strict_eq a b).

(** [Object.is(a, b)], the comparison of dependency arrays. *)
Definition object_is (a b : Value) : bool := bool_decide (a = b).

(** An array object: its identity and its elements. *)
Record JsArray : Type := { arr_ref : nat; arr_elems : list Value }.

(** [arr[index]], [undefined] out of range. *)
Definition index (l : list Value) (i : nat) : Value := default VUndefined (l !! i).

(** [arr.some((x, i) => p(x, i))] *)
Fixpoint some_from (p : Value -> nat -> bool) (i : nat) (l : list Value) : bool :=
  match l with
  | [] => false
  | x :: r => p x i || some_from p (S i) r
  end.

Definition some (p : Value -> nat -> bool) (l : list Value) : bool := some_from p 0 l.

(** What [entry.value] holds: the number it is initialised with, or the
    object built by a spread. *)
Inductive Stored : Type :=
| SNum (n : Z)
| SObj (fields : gmap string Value).

#[global] Instance Stored_eq_dec : EqDecision Stored.
Proof. solve_decision. Defined.

(** The own enumerable properties [{...v}] copies. *)
Definition own_fields (v : Stored) : gmap string Value :=
  match v with
  | SNum _ => ∅
  | SObj fields => fields
  end.

(** [{...old, ...patch}]: later spreads overwrite earlier ones. *)
Definition spread (old : Stored) (patch : gmap string Value) : Stored :=
  SObj (patch ∪ own_fields old).

(** [v?.field] on a value that may be [undefined]. *)
Definition field (v : option Stored) (name : string) : Value :=
  match v with
  | Some s => default VUndefined (own_fields s !! name)
  | None => VUndefined
  end.

(** A JavaScript [Set]: insertion ordered, no duplicates. *)
Definition set_add {A} `{EqDecision A} (x : A) (s : list A) : list A :=
  if decide (x ∈ s) then s else s ++ [x].

Definition set_delete {A} `{EqDecision A} (x : A) (s : list A) : list A :=
  filter (λ y, y ≠ x) s.

End JS.

Import JS.

(** ** Callbacks, events and the effect monad *)

(** The [notify] callbacks given to [subscribe]: the consumer hook's
    [forceUpdate] dispatcher, or any other function. *)
Inductive Notify : Type :=
| ForceUpdate (component : nat)
| OtherNotify (n : nat).

(** The callbacks given to [subscribeToArgs]: a [HookExecutor]'s [setArgs]
    state setter, or any other function. *)
Inductive Listener : Type :=
| SetArgs (fiber : nat)
| OtherListener (n : nat).

(** A remote hook function, known by its identity. *)
Definition HookFn : Type := nat.

#[global] Instance Notify_eq_dec : EqDecision Notify.
Proof. solve_decision. Defined.

#[global] Instance Listener_eq_dec : EqDecision Listener.
Proof. solve_decision. Defined.

(** A call on the [RemoteHookContextType] interface. *)
Inductive CtxCall : Type :=
| CSubscribe (notify : Notify)
| CUnsubscribe (id : string)
| CUpdateState (id : string) (value : gmap string Value)
| CGetState (id : string)
| CRegisterHook (id : string) (hookFunction : HookFn)
| CUpdateArgs (id : string) (args : list Value)
| CSubscribeToArgs (id : string) (callback : Listener)
| CArgUnsubscribe (id : string) (callback : Listener).

Inductive Event : Type :=
| EConsoleLog (message : string) (arg : Value)
| EConsoleError (message : string) (err : Value)
| ENotify (notify : Notify)
| EListener (callback : Listener) (args : list Value)
| EInvokeHook (hookFunction : HookFn) (args : list Value)
| ECtx (call : CtxCall).

Inductive Outcome (A : Type) : Type :=
| Returned (a : A)
| Thrown (err : Value).

Arguments Returned {A} a.
Arguments Thrown {A} err.

(** What the host supplies: [crypto.randomUUID] (the value of its k-th call),
    whether a callback throws when it is invoked, and what a remote hook
    returns from the cells React keeps for it. *)
Class Host : Type := {
  randomUUID : nat -> string;
  notify_throws : nat -> option Value;
  listener_throws : nat -> list Value -> option Value;
  hook_body : HookFn -> list Value -> list Value -> Outcome Value
}.

Module Eff.

Definition M (S A : Type) : Type := S -> Outcome A * S * list Event.

Definition ret {S A} (a : A) : M S A := λ s, (Returned a, s, []).

Definition bind {S A B} (k : A -> M S B) (m : M S A) : M S B := λ s,
  match m s with
  | (Returned a, s1, t1) => let '(o, s2, t2) := k a s1 in (o, s2, t1 ++ t2)
  | (Thrown err, s1, t1) => (Thrown err, s1, t1)
  end.

#[global] Instance M_ret {S} : MRet (M S) := @ret S.
#[global] Instance M_bind {S} : MBind (M S) := @bind S.

Definition throw {S A} (err : Value) : M S A := λ s, (Thrown err, s, []).

(** [try { m } catch (err) { handler(err) }] *)
Definition try_catch {S A} (m : M S A) (handler : Value -> M S A) : M S A := λ s,
  match m s with
  | (Returned a, s1, t1) => (Returned a, s1, t1)
  | (Thrown err, s1, t1) => let '(o, s2, t2) := handler err s1 in (o, s2, t1 ++ t2)
  end.

Definition get {S} : M S S := λ s, (Returned s, s, []).
Definition put {S} (s' : S) : M S unit := λ _, (Returned tt, s', []).
Definition modify {S} (f : S -> S) : M S unit := λ s, (Returned tt, f s, []).
Definition emit {S} (e : Event) : M S unit := λ s, (Returned tt, s, [e]).

(** [xs.forEach(body)] *)
Fixpoint forEach {S A} (xs : list A) (body : A -> M S unit) : M S unit :=
  match xs with
  | [] => ret tt
  | x :: rest => body x;; forEach rest body
  end.

Definition outcome_of {S A} (r : Outcome A * S * list Event) : Outcome A := r.1.1.
Definition state_of {S A} (r : Outcome A * S * list Event) : S := r.1.2.
Definition events_of {S A} (r : Outcome A * S * list Event) : list Event := r.2.

Section Calls.
Context {host : Host}.

(** What a call of [notify()] throws, if anything: React's dispatcher
    never throws. *)
Definition notify_failure (notify : Notify) : option Value :=
  match notify with
  | ForceUpdate _ => None
  | OtherNotify n => notify_throws n
  end.

(** What a call of [callback(args)] throws, if anything: React's state
    setter never throws. *)
Definition listener_failure (callback : Listener) (args : list Value) : option Value :=
  match callback with
  | SetArgs _ => None
  | OtherListener n => listener_throws n args
  end.

(** [notify()] *)
Definition call_notify {S} (notify : Notify) : M S unit :=
  emit (ENotify notify);;
  match notify_failure notify with
  | Some err => throw err
  | None => ret tt
  end.

(** [callback(args)] *)
Definition call_listener {S} (callback : Listener) (args : list Value) : M S unit :=
  emit (EListener callback args);;
  match listener_failure callback args with
  | Some err => throw err
  | None => ret tt
  end.

Definition console_log {S} (message : string) (arg : Value) : M S unit :=
  emit (EConsoleLog message arg).

Definition console_error {S} (message : string) (err : Value) : M S unit :=
  emit (EConsoleError message err).
End Calls.

End Eff.

Import Eff.

(** ** The Provider: Registry Store, AvailableHooks, Argument Channel *)

Module Provider.

Record StateEntry : Type := {
  entry_id : string;
  entry_value : Stored;
  entry_notify : Notify
}.

Record ArgSubscription : Type := {
  sub_id : string;
  sub_args : list Value;
  argNotifiers : list Listener
}.

(** The stores one mounted [RemoteHookProvider] owns, and the number of
    calls of [crypto.randomUUID] made so far. *)
Record Stores : Type := {
  state : gmap string StateEntry;
  availableHooks : gmap string HookFn;
  argSubscriptions : gmap string ArgSubscription;
  uuid_calls : nat
}.

#[global] Instance StateEntry_eq_dec : EqDecision StateEntry.
Proof. solve_decision. Defined.

#[global] Instance ArgSubscription_eq_dec : EqDecision ArgSubscription.
Proof. solve_decision. Defined.

#[global] Instance Stores_eq_dec : EqDecision Stores.
Proof. solve_decision. Defined.

(** A freshly mounted provider. *)
Definition initial : Stores :=
  {| state := ∅; availableHooks := ∅; argSubscriptions := ∅; uuid_calls := 0 |}.

Definition with_state (f : gmap string StateEntry -> gmap string StateEntry) (st : Stores) : Stores :=
  {| state := f (state st); availableHooks := availableHooks st;
     argSubscriptions := argSubscriptions st; uuid_calls := uuid_calls st |}.

Definition setAvailableHooks (f : gmap string HookFn -> gmap string HookFn) (st : Stores) : Stores :=
  {| state := state st; availableHooks := f (availableHooks st);
     argSubscriptions := argSubscriptions st; uuid_calls := uuid_calls st |}.

Definition with_argSubscriptions
    (f : gmap string ArgSubscription -> gmap string ArgSubscription) (st : Stores) : Stores :=
  {| state := state st; availableHooks := availableHooks st;
     argSubscriptions := f (argSubscriptions st); uuid_calls := uuid_calls st |}.

Definition set_value (v : Stored) (entry : StateEntry) : StateEntry :=
  {| entry_id := entry_id entry; entry_value := v; entry_notify := entry_notify entry |}.

Definition set_args (args : list Value) (sub : ArgSubscription) : ArgSubscription :=
  {| sub_id := sub_id sub; sub_args := args; argNotifiers := argNotifiers sub |}.

Definition set_argNotifiers (ls : list Listener) (sub : ArgSubscription) : ArgSubscription :=
  {| sub_id := sub_id sub; sub_args := sub_args sub; argNotifiers := ls |}.

Section Operations.
Context {host : Host}.

(** The cleanup of the provider's own effect, run when the provider
    unmounts: [Object.keys(state).forEach(id => { delete state[id]; })].
    The keys are listed in the order of the map, not in the order of their
    insertion; the deletions do not depend on it. *)
Definition provider_unmount : M Stores unit :=
  st ← get;
  forEach (elements (dom (state st))) (λ id, modify (with_state (delete id))).

(** [crypto.randomUUID()] *)
Definition crypto_randomUUID : M Stores string := λ st,
  (Returned (randomUUID (uuid_calls st)),
   {| state := state st; availableHooks := availableHooks st;
      argSubscriptions := argSubscriptions st; uuid_calls := S (uuid_calls st) |},
   []).

(** The closure [subscribe] returns as [unsubscribe]. *)
Definition unsubscribe (id : string) : M Stores unit :=
  console_log "Unsubscribing id:" (VStr id);;
  modify (with_state (delete id));;
  modify (setAvailableHooks (delete id));;
  modify (with_argSubscriptions (delete id)).

Definition subscribe (notify : Notify) : M Stores (string * M Stores unit) :=
  id ← crypto_randomUUID;
  modify (with_state
            (<[id := {| entry_id := id; entry_value := SNum 0; entry_notify := notify |}]>));;
  mret (id, unsubscribe id).

Definition updateState (id : string) (value : gmap string Value) : M Stores unit :=
  st ← get;
  match state st !! id with
  | None => mret tt
  | Some entry =>
      (* Merge with existing value *)
      modify (with_state (<[id := set_value (spread (entry_value entry) value) entry]>));;
      call_notify (entry_notify entry)
  end.

Definition getState (id : string) : M Stores (option Stored) :=
  st ← get;
  mret (entry_value <$> state st !! id).

Definition registerHook (id : string) (hookFunction : HookFn) : M Stores unit :=
  console_log "Registering hook for id:" (VStr id);;
  modify (setAvailableHooks (<[id := hookFunction]>)).

(** [argSubscriptions[id].field] throws when the entry is missing. *)
Definition the_subscription (id : string) : M Stores ArgSubscription :=
  st ← get;
  match argSubscriptions st !! id with
  | Some sub => mret sub
  | None => throw (VError "TypeError")
  end.

Definition updateArgs (id : string) (args : list Value) : M Stores unit :=
  st ← get;
  match argSubscriptions st !! id with
  | None =>
      modify (with_argSubscriptions
                (<[id := {| sub_id := id; sub_args := args; argNotifiers := [] |}]>))
  | Some sub =>
      modify (with_argSubscriptions (<[id := set_args args sub]>))
  end;;
  (* Notify all arg subscribers for this ID *)
  sub ← the_subscription id;
  forEach (argNotifiers sub) (λ callback,
    try_catch (call_listener callback args)
              (λ err, console_error "Error in arg subscriber callback:" err)).

(** The closure [subscribeToArgs] returns. *)
Definition argUnsubscribe (id : string) (callback : Listener) : M Stores unit :=
  st ← get;
  match argSubscriptions st !! id with
  | None => mret tt
  | Some sub =>
      modify (with_argSubscriptions
                (<[id := set_argNotifiers (set_delete callback (argNotifiers sub)) sub]>))
  end.

Definition subscribeToArgs (id : string) (callback : Listener) : M Stores (M Stores unit) :=
  st ← get;
  match argSubscriptions st !! id with
  | None =>
      modify (with_argSubscriptions
                (<[id := {| sub_id := id; sub_args := []; argNotifiers := [] |}]>))
  | Some _ => mret tt
  end;;
  sub ← the_subscription id;
  modify (with_argSubscriptions
            (<[id := set_argNotifiers (set_add callback (argNotifiers sub)) sub]>));;
  (* Call immediately with current args if available *)
  sub' ← the_subscription id;
  (if bool_decide (0 < length (sub_args sub'))
   then call_listener callback (sub_args sub')
   else mret tt);;
  mret (argUnsubscribe id callback).

End Operations.

End Provider.

(** ** The context interface and its implementations *)

(** [RemoteHookContextType]: the operations descendants obtain with
    [useContext(RemoteHookContext)].  The functions returned by [subscribe]
    and [subscribeToArgs] are computations themselves. *)
Record RemoteHookContextType (S : Type) : Type := {
  ctx_subscribe : Notify -> M S (string * M S unit);
  ctx_updateState : string -> gmap string Value -> M S unit;
  ctx_getState : string -> M S (option Stored);
  ctx_registerHook : string -> HookFn -> M S unit;
  ctx_updateArgs : string -> list Value -> M S unit;
  ctx_subscribeToArgs : string -> Listener -> M S (M S unit)
}.

Arguments ctx_subscribe {S} _ _.
Arguments ctx_updateState {S} _ _ _.
Arguments ctx_getState {S} _ _.
Arguments ctx_registerHook {S} _ _ _.
Arguments ctx_updateArgs {S} _ _ _.
Arguments ctx_subscribeToArgs {S} _ _ _.

(** The value [RemoteHookProvider] passes to [RemoteHookContext.Provider]. *)
Definition provider_context {host : Host} : RemoteHookContextType Provider.Stores := {|
  ctx_subscribe := Provider.subscribe;
  ctx_updateState := Provider.updateState;
  ctx_getState := Provider.getState;
  ctx_registerHook := Provider.registerHook;
  ctx_updateArgs := Provider.updateArgs;
  ctx_subscribeToArgs := Provider.subscribeToArgs
|}.

(** The default value of [createContext]: what a descendant outside any
    provider receives. *)
Definition default_context {S} : RemoteHookContextType S := {|
  ctx_subscribe := λ _, mret ("", mret tt);
  ctx_updateState := λ _ _, mret tt;
  ctx_getState := λ _, mret None;
  ctx_registerHook := λ _ _, mret tt;
  ctx_updateArgs := λ _ _, mret tt;
  ctx_subscribeToArgs := λ _ _, mret (mret tt)
|}.

(** A context that does nothing but record the calls made on it;
    [subscribe] hands out the id [id0]. *)
Definition recording_context {S} (id0 : string) : RemoteHookContextType S := {|
  ctx_subscribe := λ notify,
    emit (ECtx (CSubscribe notify));; mret (id0, emit (ECtx (CUnsubscribe id0)));
  ctx_updateState := λ id value, emit (ECtx (CUpdateState id value));
  ctx_getState := λ id, emit (ECtx (CGetState id));; mret None;
  ctx_registerHook := λ id hookFunction, emit (ECtx (CRegisterHook id hookFunction));
  ctx_updateArgs := λ id args, emit (ECtx (CUpdateArgs id args));
  ctx_subscribeToArgs := λ id callback,
    emit (ECtx (CSubscribeToArgs id callback));;
    mret (emit (ECtx (CArgUnsubscribe id callback)))
|}.

(** ** The Execution Unit *)

Module Executor.

(** What a component returns; [HookExecutor] only ever returns [null]. *)
Inductive Rendered : Type :=
| RNull
| RElement (tag : string).

Record Props : Type := {
  id : string;
  hookFunction : HookFn
}.

(** What React keeps for one mounted [HookExecutor]: the [useState] cell,
    the cells of the remote hook, and for each [useEffect] the dependencies
    of its last run ([None] before the first commit).  The functions
    [subscribeToArgs] and [updateState] among the dependencies are memoised
    by the provider and never change, so only the others are kept. *)
Record Fiber (S : Type) : Type := {
  fiber_key : nat;
  args : list Value;
  cells : list Value;
  subscription : option (string * M S unit);
  reported : option (Value * string)
}.

Arguments fiber_key {S} _.
Arguments args {S} _.
Arguments cells {S} _.
Arguments subscription {S} _.
Arguments reported {S} _.

(** A fiber about to be mounted. *)
Definition mounting {S} (key : nat) (cells0 : list Value) : Fiber S :=
  {| fiber_key := key; args := []; cells := cells0; subscription := None; reported := None |}.

(** [setArgs(a)] *)
Definition setArgs {S} (a : list Value) (fb : Fiber S) : Fiber S :=
  {| fiber_key := fiber_key fb; args := a; cells := cells fb;
     subscription := subscription fb; reported := reported fb |}.

Section Component.
Context {host : Host} {S : Type} (ctx : RemoteHookContextType S).

(** The body of the component: the hook is called with the spread
    arguments, and [null] is returned. *)
Definition render (props : Props) (fb : Fiber S) : M S (Rendered * Value) :=
  (* Always call the hook with args (rules of hooks) *)
  emit (EInvokeHook (hookFunction props) (args fb));;
  match hook_body (hookFunction props) (cells fb) (args fb) with
  | Thrown err => throw err
  | Returned hookResult => mret (RNull, hookResult)
  end.

(** [useEffect(..., [id, subscribeToArgs])] *)
Definition subscribe_effect (props : Props) (fb : Fiber S) : M S (option (string * M S unit)) :=
  match subscription fb with
  | Some (id', cleanup) =>
      if bool_decide (id' = id props) then mret (subscription fb)
      else
        cleanup;;
        unsubscribe ← ctx_subscribeToArgs ctx (id props) (SetArgs (fiber_key fb));
        mret (Some (id props, unsubscribe))
  | None =>
      unsubscribe ← ctx_subscribeToArgs ctx (id props) (SetArgs (fiber_key fb));
      mret (Some (id props, unsubscribe))
  end.

(** Whether [[hookResult, id, updateState]] differs from the last run. *)
Definition result_changed (props : Props) (fb : Fiber S) (hookResult : Value) : bool :=
  match reported fb with
  | Some (previous, id') => negb (object_is previous hookResult && bool_decide (id' = id props))
  | None => true
  end.

(** [useEffect(..., [hookResult, id, updateState])] *)
Definition report_effect (props : Props) (fb : Fiber S) (hookResult : Value) : M S unit :=
  if result_changed props fb hookResult
  then ctx_updateState ctx (id props) {[ "hookResult" := hookResult ]}
  else mret tt.

(** The effects of one commit, in the order of their declaration. *)
Definition commit (props : Props) (fb : Fiber S) (hookResult : Value) : M S (Fiber S) :=
  sub ← subscribe_effect props fb;
  report_effect props fb hookResult;;
  mret {| fiber_key := fiber_key fb; args := args fb; cells := cells fb;
          subscription := sub; reported := Some (hookResult, id props) |}.

(** One render of the component followed by its commit. *)
Definition render_pass (props : Props) (fb : Fiber S) : M S (Rendered * Fiber S) :=
  '(output, hookResult) ← render props fb;
  fb' ← commit props fb hookResult;
  mret (output, fb').

(** The cleanup of the subscription effect, run when the unit unmounts. *)
Definition unmount (fb : Fiber S) : M S unit :=
  match subscription fb with
  | Some (_, cleanup) => cleanup
  | None => mret tt
  end.
End Component.

End Executor.

(** ** The Consumer Hook *)

Module Consumer.

(** How the promise returned by [getModule(scope, module, importName)]
    settles. *)
Inductive Settlement : Type :=
| Resolved (hookFunction : HookFn)
| Rejected (error : Value).

(** What one run of the loading effect closes over: the id it subscribed
    with, the [unsubscribe] it received, the [args] of the render that
    scheduled it, and its [isMounted] variable. *)
Record LoadEffect (S : Type) : Type := {
  load_id : string;
  load_unsubscribe : M S unit;
  load_args : list Value;
  isMounted : bool
}.

Arguments load_id {S} _.
Arguments load_unsubscribe {S} _.
Arguments load_args {S} _.
Arguments isMounted {S} _.

Section Hook.
Context {S : Type} (ctx : RemoteHookContextType S).

(** Modelled from the spec: [useRemoteHook.ts] is not among the sources;
    this is the effect of the README's listing of [useRemoteHook]
    (section 4.5, Idle to Loading): subscribe, keep the id, mark the entry
    as loading and start the load. *)
Definition mount (component : nat) (args : JsArray) : M S (LoadEffect S) :=
  '(id, unsubscribe) ← ctx_subscribe ctx (ForceUpdate component);
  ctx_updateState ctx id {[ "loading" := VBool true; "error" := VNull ]};;
  mret {| load_id := id; load_unsubscribe := unsubscribe;
          load_args := arr_elems args; isMounted := true |}.

(** Modelled from the spec: [useRemoteHook.ts] is not among the sources;
    this is the effect's cleanup (section 4.5, Teardown): clear the
    still-mounted flag, then call [unsubscribe]. *)
Definition cleanup (eff : LoadEffect S) : M S (LoadEffect S) :=
  let eff' := {| load_id := load_id eff; load_unsubscribe := load_unsubscribe eff;
                 load_args := load_args eff; isMounted := false |} in
  load_unsubscribe eff;;
  mret eff'.

(** Modelled from the spec: [useRemoteHook.ts] is not among the sources;
    this is what [loadHook] does once the awaited promise settles
    (section 4.5, Loading to Ready and Loading to Failed; section 5,
    Cancellation): a rejection, or an exception of the success branch,
    lands in the [catch] block, and both blocks test the flag first. *)
Definition loadHook_settled (eff : LoadEffect S) (r : Settlement) : M S unit :=
  try_catch
    (match r with
     | Rejected error => throw error
     | Resolved hookFunction =>
         if isMounted eff then
           ctx_updateState ctx (load_id eff) {[ "loading" := VBool false; "error" := VNull ]};;
           ctx_updateArgs ctx (load_id eff) (load_args eff);;
           ctx_registerHook ctx (load_id eff) hookFunction
         else mret tt
     end)
    (λ error,
       if isMounted eff
       then ctx_updateState ctx (load_id eff) {[ "loading" := VBool false; "error" := error ]}
       else mret tt).

(** Modelled from the spec: [useRemoteHook.ts] is not among the sources;
    this is the shallow comparison of the README's "Argument Change
    Detection" listing (section 4.5, Argument propagation). *)
Definition hasChanged (args current : JsArray) : bool :=
  negb (length (arr_elems args) =? length (arr_elems current))%nat
  || some (λ arg i, strict_ne arg (index (arr_elems current) i)) (arr_elems args).

(** Modelled from the spec: [useRemoteHook.ts] is not among the sources;
    this is the guarded forwarding of the same listing.  It takes
    [argsRef.current] and the [args] of this render, and returns the new
    [argsRef.current]. *)
Definition forward_args (id : string) (argsRef : JsArray) (args : JsArray) : M S JsArray :=
  if hasChanged args argsRef
  then ctx_updateArgs ctx id (arr_elems args);; mret args
  else mret argsRef.

(** Modelled from the spec: [useRemoteHook.ts] is not among the sources;
    two renders in a row: [useRef(args)] on the first, the comparison on
    both. *)
Definition two_renders (id : string) (first second : JsArray) : M S JsArray :=
  argsRef ← forward_args id first first;
  forward_args id argsRef second.
End Hook.

End Consumer.

(** ** Sequences of store operations, and what the specification says of them *)

Module Runs.
Import Provider.

Section Runs.
Context {host : Host}.

(** One call on the provider's context, its result dropped. *)
Definition perform (call : CtxCall) : M Stores unit :=
  match call with
  | CSubscribe notify => subscribe notify;; mret tt
  | CUnsubscribe id => unsubscribe id
  | CUpdateState id value => updateState id value
  | CGetState id => getState id;; mret tt
  | CRegisterHook id hookFunction => registerHook id hookFunction
  | CUpdateArgs id args => updateArgs id args
  | CSubscribeToArgs id callback => subscribeToArgs id callback;; mret tt
  | CArgUnsubscribe id callback => argUnsubscribe id callback
  end.

(** The stores after a sequence of calls.  A call that throws ends its
    caller, not the provider: the next call finds the stores as the
    failed one left them. *)
Fixpoint run_calls (calls : list CtxCall) (st : Stores) : Stores :=
  match calls with
  | [] => st
  | call :: rest => run_calls rest (state_of (perform call st))
  end.

(** The ids the [subscribe] calls of a sequence returned, oldest first. *)
Fixpoint subscribed_ids (calls : list CtxCall) (st : Stores) : list string :=
  match calls with
  | [] => []
  | call :: rest =>
      match call with
      | CSubscribe notify =>
          match outcome_of (subscribe notify st) with
          | Returned (id, _) => [id]
          | Thrown _ => []
          end
      | _ => []
      end ++ subscribed_ids rest (state_of (perform call st))
  end.

(** Every [registerHook (id, _)] of the sequence finds a RegistryEntry
    for [id], as the consumer hook's calls under its still-mounted flag
    do. *)
Fixpoint registers_live_ids (calls : list CtxCall) (st : Stores) : Prop :=
  match calls with
  | [] => True
  | call :: rest =>
      match call with
      | CRegisterHook id _ => is_Some (state st !! id)
      | _ => True
      end ∧ registers_live_ids rest (state_of (perform call st))
  end.

(** What one broadcast of [args] to the listeners [ls] shows: each
    listener is called, and what it throws goes to [console.error]. *)
Definition broadcast_trace (ls : list Listener) (args : list Value) : list Event :=
  ls ≫= (λ callback,
    EListener callback args ::
    match listener_failure callback args with
    | Some err => [EConsoleError "Error in arg subscriber callback:" err]
    | None => []
    end).
End Runs.

(** The listener invocations of a trace, in order. *)
Definition invoked (trace : list Event) : list (Listener * list Value) :=
  omap (λ e, match e with EListener callback args => Some (callback, args) | _ => None end) trace.

(** The calls recorded on the context, in order. *)
Definition recorded (trace : list Event) : list CtxCall :=
  omap (λ e, match e with ECtx call => Some call | _ => None end) trace.

(** The listeners registered for [id]. *)
Definition listeners (st : Stores) (id : string) : list Listener :=
  from_option argNotifiers [] (argSubscriptions st !! id).

(** Entries are filed under their own id. *)
Definition keyed_by_id (st : Stores) : Prop :=
  (∀ k entry, state st !! k = Some entry → entry_id entry = k)
  ∧ (∀ k sub, argSubscriptions st !! k = Some sub → sub_id sub = k).

(** At most one RegistryEntry, one ArgSubscription and one AvailableHooks
    entry carry the id [id]. *)
Definition at_most_one (st : Stores) (id : string) : Prop :=
  (∀ k1 k2 e1 e2, state st !! k1 = Some e1 → state st !! k2 = Some e2 →
      entry_id e1 = id → entry_id e2 = id → k1 = k2 ∧ e1 = e2)
  ∧ (∀ k1 k2 s1 s2, argSubscriptions st !! k1 = Some s1 → argSubscriptions st !! k2 = Some s2 →
      sub_id s1 = id → sub_id s2 = id → k1 = k2 ∧ s1 = s2)
  ∧ (∀ f g, availableHooks st !! id = Some f → availableHooks st !! id = Some g → f = g).

(** An AvailableHooks entry only where there is a RegistryEntry. *)
Definition hooks_have_entries (st : Stores) : Prop :=
  ∀ id, is_Some (availableHooks st !! id) → is_Some (state st !! id).

(** The entry [updateArgs] leaves under an id, given the one it found. *)
Definition stored_args (id : string) (args : list Value) (old : option ArgSubscription)
    : ArgSubscription :=
  match old with
  | Some sub => set_args args sub
  | None => {| sub_id := id; sub_args := args; argNotifiers := [] |}
  end.

(** The entry [subscribeToArgs] works on, given the one it found. *)
Definition found_or_empty (id : string) (old : option ArgSubscription) : ArgSubscription :=
  default {| sub_id := id; sub_args := []; argNotifiers := [] |} old.

(** The stores a call leaves behind, written out store by store. *)
Definition effect_on_stores {host : Host} (call : CtxCall) (st : Stores) : Stores :=
  match call with
  | CSubscribe notify =>
      let id := randomUUID (uuid_calls st) in
      {| state := <[id := {| entry_id := id; entry_value := SNum 0; entry_notify := notify |}]>
                    (state st);
         availableHooks := availableHooks st;
         argSubscriptions := argSubscriptions st;
         uuid_calls := S (uuid_calls st) |}
  | CUnsubscribe id =>
      with_argSubscriptions (delete id)
        (setAvailableHooks (delete id) (with_state (delete id) st))
  | CUpdateState id value =>
      match state st !! id with
      | Some entry =>
          with_state (<[id := set_value (spread (entry_value entry) value) entry]>) st
      | None => st
      end
  | CGetState _ => st
  | CRegisterHook id hookFunction => setAvailableHooks (<[id := hookFunction]>) st
  | CUpdateArgs id args =>
      with_argSubscriptions (<[id := stored_args id args (argSubscriptions st !! id)]>) st
  | CSubscribeToArgs id callback =>
      let sub := found_or_empty id (argSubscriptions st !! id) in
      with_argSubscriptions
        (<[id := set_argNotifiers (set_add callback (argNotifiers sub)) sub]>) st
  | CArgUnsubscribe id callback =>
      match argSubscriptions st !! id with
      | Some sub =>
          with_argSubscriptions
            (<[id := set_argNotifiers (set_delete callback (argNotifiers sub)) sub]>) st
      | None => st
      end
  end.

(** No store holds anything for [id]. *)
Definition no_entries (st : Stores) (id : string) : Prop :=
  state st !! id = None ∧ availableHooks st !! id = None ∧ argSubscriptions st !! id = None.

End Runs.

(** ** A concrete host, for examples *)

Module Demo.

(** The k-th UUID is the decimal numeral of k; the listener number 1
    throws; remote hooks return their first argument. *)
Definition host : Host := {|
  randomUUID := λ k, pretty k;
  notify_throws := λ _, None;
  listener_throws := λ n _, if (n =? 1)%nat then Some (VError "boom") else None;
  hook_body := λ _ _ args, Returned (index args 0)
|}.

Definition one_two (r : nat) : JsArray := {| arr_ref := r; arr_elems := [VNum 1; VNum 2] |}.
Definition one_three (r : nat) : JsArray := {| arr_ref := r; arr_elems := [VNum 1; VNum 3] |}.

End Demo.

(** ** What React does between two renders of an Execution Unit *)

Module Rerender.
Import Executor.

(** The value the state setter of the fiber [key] was last called with in a
    trace, if it was called. *)
Definition last_setArgs (key : nat) (trace : list Event) : option (list Value) :=
  last (omap (λ e, match e with
                   | EListener (SetArgs k) a => if bool_decide (k = key) then Some a else None
                   | _ => None
                   end) trace).

(** The fiber the next render starts from: the queued [setArgs] has been
    applied to the [useState] cell. *)
Definition apply_updates {S} (trace : list Event) (fb : Fiber S) : Fiber S :=
  match last_setArgs (fiber_key fb) trace with
  | Some a => setArgs a fb
  | None => fb
  end.

(** The fiber the first commit of a unit leaves under the provider. *)
Definition mounted (props : Props) (key : nat) (cells0 : list Value) (r : Value)
    : Fiber Provider.Stores :=
  {| fiber_key := key; args := []; cells := cells0;
     subscription := Some (id props, Provider.argUnsubscribe (id props) (SetArgs key));
     reported := Some (r, id props) |}.

End Rerender.

(** ** The remote hooks of the example *)

Module RemoteHooks.

(** Whether a value is truthy. *)
Definition truthy (v : Value) : bool :=
  match v with
  | VUndefined | VNull | VNaN => false
  | VBool b => b
  | VNum n => negb (n =? 0)%Z
  | VStr s => negb (String.eqb s "")
  | VRef _ | VError _ => true
  end.

(** [a || b] *)
Definition or_else (a b : Value) : Value := if truthy a then a else b.

(** The hook exposed as [./useAsyncPassThrough] (declared under the name
    [useAsyncCounter] in its file): [useMemo(() => value || 'default', [value])].
    The memoised function is pure, so the cell always holds its result for
    the current [value]. *)
Definition useAsyncPassThrough (value : Value) : Value :=
  or_else value (VStr "default").

End RemoteHooks.

(** ** A host with failing callbacks, for examples *)

Module Failing.

(** The notify callback number 1 and the listener number 1 throw; remote
    hooks are the pass-through hook applied to their first argument. *)
Definition host : Host := {|
  randomUUID := λ k, pretty k;
  notify_throws := λ n, if (n =? 1)%nat then Some (VError "notify") else None;
  listener_throws := λ n _, if (n =? 1)%nat then Some (VError "boom") else None;
  hook_body := λ _ _ args, Returned (RemoteHooks.useAsyncPassThrough (index args 0))
|}.

End Failing.

(** ** What each provider operation computes *)

Module Facts.
Import Provider Runs.

Ltac run :=
  repeat (cbv [unsubscribe subscribe updateState getState registerHook updateArgs
               subscribeToArgs argUnsubscribe the_subscription crypto_randomUUID
               console_log console_error call_notify call_listener
               mbind mret M_bind M_ret bind ret modify get put emit throw try_catch
               outcome_of state_of events_of]; cbn).

Section Facts.
Context {host : Host}.

(** Whatever follows a computation, its events come first. *)
Lemma bind_events_prefix {S A B} (m : M S A) (k : A → M S B) (s : S) :
  ∃ rest, events_of ((m ≫= k) s) = events_of (m s) ++ rest.
Proof.
  unfold mbind, M_bind, bind, events_of.
  destruct (m s) as [[[a|err] s1] t1]; cbn.
  - destruct (k a s1) as [[o s2] t2]. by eexists.
  - exists []. by rewrite app_nil_r.
Qed.

Lemma unsubscribe_run id st :
  unsubscribe id st =
    (Returned tt,
     with_argSubscriptions (delete id) (setAvailableHooks (delete id) (with_state (delete id) st)),
     [EConsoleLog "Unsubscribing id:" (VStr id)]).
Proof. reflexivity. Qed.

Lemma subscribe_run notify st :
  let id := randomUUID (uuid_calls st) in
  subscribe notify st =
    (Returned (id, unsubscribe id),
     {| state := <[id := {| entry_id := id; entry_value := SNum 0; entry_notify := notify |}]>
                   (state st);
        availableHooks := availableHooks st;
        argSubscriptions := argSubscriptions st;
        uuid_calls := S (uuid_calls st) |},
     []).
Proof. reflexivity. Qed.

Lemma updateState_absent id value st :
  state st !! id = None → updateState id value st = (Returned tt, st, []).
Proof. intros E. run. by rewrite E. Qed.

Lemma updateState_present id value st entry :
  state st !! id = Some entry →
  updateState id value st =
    (match notify_failure (entry_notify entry) with
     | Some err => Thrown err
     | None => Returned tt
     end,
     with_state (<[id := set_value (spread (entry_value entry) value) entry]>) st,
     [ENotify (entry_notify entry)]).
Proof. intros E. run. rewrite E. by destruct (notify_failure _). Qed.

Lemma getState_run id st :
  getState id st = (Returned (entry_value <$> state st !! id), st, []).
Proof. reflexivity. Qed.

Lemma registerHook_run id f st :
  registerHook id f st =
    (Returned tt, setAvailableHooks (<[id := f]>) st,
     [EConsoleLog "Registering hook for id:" (VStr id)]).
Proof. reflexivity. Qed.

Lemma forEach_broadcast {S} (ls : list Listener) args (s : S) :
  forEach ls (λ callback,
      try_catch (call_listener callback args)
                (λ err, console_error "Error in arg subscriber callback:" err)) s
  = (Returned tt, s, broadcast_trace ls args).
Proof.
  induction ls as [|cb ls IH]; [done|].
  cbn [forEach]. unfold mbind, M_bind, bind. 
  assert (try_catch (call_listener cb args)
            (λ err, console_error "Error in arg subscriber callback:" err) s
          = (Returned tt, s,
             EListener cb args ::
             match listener_failure cb args with
             | Some err => [EConsoleError "Error in arg subscriber callback:" err]
             | None => []
             end)) as ->.
  { run. by destruct (listener_failure cb args). }
  rewrite IH. unfold broadcast_trace. cbn. by destruct (listener_failure cb args).
Qed.

Lemma updateArgs_run id args st :
  updateArgs id args st =
    (Returned tt,
     with_argSubscriptions (<[id := stored_args id args (argSubscriptions st !! id)]>) st,
     broadcast_trace (listeners st id) args).
Proof.
  unfold updateArgs, listeners, the_subscription, mbind, M_bind, bind, get, modify.
  destruct (argSubscriptions st !! id) as [sub|] eqn:E; cbn;
    rewrite lookup_insert_eq; cbn; [by rewrite forEach_broadcast | done].
Qed.

Lemma subscribeToArgs_run id callback st :
  let sub0 := found_or_empty id (argSubscriptions st !! id) in
  let sub1 := set_argNotifiers (set_add callback (argNotifiers sub0)) sub0 in
  let st1 := with_argSubscriptions (<[id := sub1]>) st in
  subscribeToArgs id callback st =
    if bool_decide (0 < length (sub_args sub0)) then
      (match listener_failure callback (sub_args sub0) with
       | Some err => Thrown err
       | None => Returned (argUnsubscribe id callback)
       end, st1, [EListener callback (sub_args sub0)])
    else (Returned (argUnsubscribe id callback), st1, []).
Proof.
  unfold subscribeToArgs, the_subscription, mbind, M_bind, bind, get, modify, found_or_empty.
  destruct (argSubscriptions st !! id) as [sub|] eqn:E; cbn.
  - rewrite E. cbn. rewrite lookup_insert_eq. cbn.
    case_bool_decide; run; [by destruct (listener_failure _ _)|done].
  - rewrite lookup_insert_eq. cbn. rewrite lookup_insert_eq. cbn.
    unfold with_argSubscriptions; cbn. by rewrite insert_insert_eq.
Qed.

Lemma argUnsubscribe_run id callback st :
  argUnsubscribe id callback st =
    (Returned tt,
     match argSubscriptions st !! id with
     | Some sub =>
         with_argSubscriptions
           (<[id := set_argNotifiers (set_delete callback (argNotifiers sub)) sub]>) st
     | None => st
     end, []).
Proof. run. by destruct (argSubscriptions st !! id). Qed.

End Facts.
End Facts.

(** ** The Registry Store *)

Module RegistryStore.
Import Provider Runs Facts.

Section Registry.
Context {host : Host}.

(** C1. For the id and the [unsubscribe] function returned by
    [subscribe], whatever the stores have become in the meantime: once
    [unsubscribe()] has run there is no RegistryEntry, no AvailableHooks
    entry and no ArgSubscription for the id, and a second [unsubscribe()]
    returns normally and leaves the stores exactly as they are. *)
Theorem unsubscribe_leaves_nothing (notify : Notify) (st : Stores) :
  ∃ (id : string) (unsub : M Stores unit),
    outcome_of (subscribe notify st) = Returned (id, unsub)
    ∧ is_Some (state (state_of (subscribe notify st)) !! id)
    ∧ ∀ st' : Stores,
        let st2 := state_of (unsub st') in
        outcome_of (unsub st') = Returned tt
        ∧ no_entries st2 id
        ∧ outcome_of (unsub st2) = Returned tt
        ∧ state_of (unsub st2) = st2.
Proof.
  eexists _, _. split; [by rewrite subscribe_run|].
  split.
  { rewrite subscribe_run. cbn. rewrite lookup_insert_eq. by eexists. }
  intros st'. rewrite !unsubscribe_run. cbn.
  repeat split; try apply lookup_delete_eq.
  rewrite unsubscribe_run.
  unfold with_argSubscriptions, setAvailableHooks, with_state; cbn.
  by rewrite !delete_delete_eq.
Qed.

(** C2. [updateState (id, patch)] changes nothing and notifies nobody
    when there is no RegistryEntry for [id].  Otherwise the entry's value
    becomes the shallow merge of the old value and the patch (a field of
    the patch wins, the other old fields stay), exactly the entry's own
    [notify] is invoked, and the entries of the other ids and the other
    stores are as before.  On an entry whose value has no fields yet,
    [{a: 1}] then [{b: 2}] leave [{a: 1, b: 2}]. *)
Theorem updateState_merges (id : string) (patch : gmap string Value) (st : Stores) :
  (state st !! id = None → updateState id patch st = (Returned tt, st, []))
  ∧ (∀ entry, state st !! id = Some entry →
       let r := updateState id patch st in
       let st1 := state_of r in
       outcome_of (getState id st1) = Returned (Some (spread (entry_value entry) patch))
       ∧ (∀ name, own_fields (spread (entry_value entry) patch) !! name =
                    match patch !! name with
                    | Some v => Some v
                    | None => own_fields (entry_value entry) !! name
                    end)
       ∧ events_of r = [ENotify (entry_notify entry)]
       ∧ (entry_notify <$> state st1 !! id) = Some (entry_notify entry)
       ∧ (∀ id', id' ≠ id → state st1 !! id' = state st !! id')
       ∧ availableHooks st1 = availableHooks st
       ∧ argSubscriptions st1 = argSubscriptions st)
  ∧ (∀ entry, state st !! id = Some entry → own_fields (entry_value entry) = ∅ →
       let st1 := state_of (updateState id {[ "a" := VNum 1 ]} st) in
       let st2 := state_of (updateState id {[ "b" := VNum 2 ]} st1) in
       outcome_of (getState id st2)
       = Returned (Some (SObj {[ "a" := VNum 1; "b" := VNum 2 ]}))).
Proof.
  split; [apply updateState_absent|]. split.
  - intros entry E. rewrite (updateState_present _ _ _ _ E). cbn.
    rewrite getState_run. cbn. rewrite !lookup_insert_eq. cbn.
    repeat split; try done.
    + intros name. rewrite lookup_union.
      destruct (patch !! name), (own_fields (entry_value entry) !! name); done.
    + intros id' Hne. by rewrite lookup_insert_ne.
  - intros entry E Hempty.
    rewrite (updateState_present _ _ _ _ E). cbn.
    erewrite updateState_present; [|cbn; apply lookup_insert_eq]. cbn.
    rewrite getState_run. cbn. rewrite lookup_insert_eq. cbn.
    unfold spread. cbn [own_fields]. rewrite Hempty. reflexivity.
Qed.

End Registry.

#[local] Existing Instance Demo.host.

(** The merge of C2 on the stores of the concrete host, from a fresh
    subscription. *)
Lemma updateState_merges_witness :
  let st := state_of (subscribe (ForceUpdate 0) initial) in
  updateState "9" {[ "a" := VNum 1 ]} st = (Returned tt, st, [])
  ∧ outcome_of (getState "0"
       (state_of (updateState "0" {[ "b" := VNum 2 ]}
          (state_of (updateState "0" {[ "a" := VNum 1 ]} st)))))
    = Returned (Some (SObj {[ "a" := VNum 1; "b" := VNum 2 ]})).
Proof.
  pose proof (updateState_merges "9" {[ "a" := VNum 1 ]}
                (state_of (subscribe (ForceUpdate 0) initial))) as [H9 _].
  pose proof (updateState_merges "0" ∅
                (state_of (subscribe (ForceUpdate 0) initial))) as (_ & _ & H0).
  split.
  - apply H9. vm_compute. reflexivity.
  - apply (H0 {| entry_id := "0"; entry_value := SNum 0; entry_notify := ForceUpdate 0 |}).
    + vm_compute. reflexivity.
    + reflexivity.
Defined.

End RegistryStore.

(** ** The Argument Channel *)

Module ArgumentChannel.
Import Provider Runs Facts.

Section Channel.
Context {host : Host}.

Lemma broadcast_trace_cons (cb : Listener) (ls : list Listener) (args : list Value) :
  broadcast_trace (cb :: ls) args
  = (EListener cb args ::
     match listener_failure cb args with
     | Some err => [EConsoleError "Error in arg subscriber callback:" err]
     | None => []
     end) ++ broadcast_trace ls args.
Proof. reflexivity. Qed.

Lemma invoked_broadcast (ls : list Listener) (args : list Value) :
  invoked (broadcast_trace ls args) = (λ callback, (callback, args)) <$> ls.
Proof.
  induction ls as [|cb ls IH]; [done|].
  rewrite broadcast_trace_cons. unfold invoked in *.
  rewrite omap_app, IH. by destruct (listener_failure cb args).
Qed.

Lemma listeners_after_subscribeToArgs id callback st :
  listeners (state_of (subscribeToArgs id callback st)) id
  = set_add callback (listeners st id).
Proof.
  rewrite subscribeToArgs_run. unfold listeners.
  case_bool_decide; cbn; rewrite lookup_insert_eq; cbn;
    by destruct (argSubscriptions st !! id).
Qed.

Lemma elem_of_set_add {A} `{EqDecision A} (x : A) (s : list A) : x ∈ set_add x s.
Proof. unfold set_add. case_decide; [done|]. set_solver. Qed.

(** C3. Once [updateArgs (id, A)] has stored a non-empty [A], a following
    [subscribeToArgs (id, cb)] calls [cb (A)] on the spot, once, and [cb]
    is registered.  The same holds for any stored non-empty sequence.
    When the stored sequence is empty, or when there is no
    ArgSubscription for [id], [cb] is registered and not called. *)
Theorem subscribeToArgs_catches_up (id : string) (cb : Listener) (A : list Value) (st : Stores) :
  (A ≠ [] →
     let r := subscribeToArgs id cb (state_of (updateArgs id A st)) in
     events_of r = [EListener cb A] ∧ cb ∈ listeners (state_of r) id)
  ∧ (∀ sub, argSubscriptions st !! id = Some sub → sub_args sub = A → A ≠ [] →
       let r := subscribeToArgs id cb st in
       events_of r = [EListener cb A] ∧ cb ∈ listeners (state_of r) id)
  ∧ (∀ sub, argSubscriptions st !! id = Some sub → sub_args sub = [] →
       let r := subscribeToArgs id cb st in
       events_of r = [] ∧ outcome_of r = Returned (argUnsubscribe id cb)
       ∧ cb ∈ listeners (state_of r) id)
  ∧ (argSubscriptions st !! id = None →
       let r := subscribeToArgs id cb st in
       events_of r = [] ∧ outcome_of r = Returned (argUnsubscribe id cb)
       ∧ listeners (state_of r) id = [cb]).
Proof.
  assert (∀ st0 sub, argSubscriptions st0 !! id = Some sub → sub_args sub ≠ [] →
            events_of (subscribeToArgs id cb st0) = [EListener cb (sub_args sub)]) as Hne.
  { intros st0 sub E Hsub. rewrite subscribeToArgs_run, E. cbn.
    rewrite bool_decide_true; [done|]. destruct (sub_args sub); [done|cbn; lia]. }
  assert (∀ st0, cb ∈ listeners (state_of (subscribeToArgs id cb st0)) id) as Hreg.
  { intros st0. rewrite listeners_after_subscribeToArgs. apply elem_of_set_add. }
  split; [|split; [|split]].
  - intros HA. cbn zeta. split; [|apply Hreg].
    rewrite updateArgs_run. cbn.
    erewrite Hne; [| cbn; apply lookup_insert_eq |];
      by destruct (argSubscriptions st !! id).
  - intros sub E <- HA. cbn zeta. split; [by apply Hne|apply Hreg].
  - intros sub E Hempty. cbn zeta. split; [|split; [|apply Hreg]];
      rewrite subscribeToArgs_run, E; cbn; by rewrite Hempty.
  - intros E. cbn zeta. split; [|split].
    + by rewrite subscribeToArgs_run, E.
    + by rewrite subscribeToArgs_run, E.
    + rewrite listeners_after_subscribeToArgs. unfold listeners. by rewrite E.
Qed.

(** C4. [updateArgs (id, args)] stores [args] in place of what was stored
    and keeps the listeners; it then calls every listener registered for
    [id] with [args], in the order of the set, which is the order of
    registration (a new listener joins at the end).  What a listener
    throws goes to [console.error]; the following listeners are still
    called and [updateArgs] itself returns normally. *)
Theorem updateArgs_broadcasts (id : string) (args : list Value) (st : Stores) :
  let r := updateArgs id args st in
  outcome_of r = Returned tt
  ∧ (sub_args <$> argSubscriptions (state_of r) !! id) = Some args
  ∧ listeners (state_of r) id = listeners st id
  ∧ events_of r = broadcast_trace (listeners st id) args
  ∧ invoked (events_of r) = (λ callback, (callback, args)) <$> listeners st id
  ∧ (∀ callback, callback ∉ listeners st id →
       listeners (state_of (subscribeToArgs id callback st)) id
       = listeners st id ++ [callback]).
Proof.
  cbn. rewrite updateArgs_run. cbn. rewrite lookup_insert_eq. cbn.
  repeat split.
  - by destruct (argSubscriptions st !! id).
  - unfold listeners. cbn. rewrite lookup_insert_eq.
    by destruct (argSubscriptions st !! id).
  - apply invoked_broadcast.
  - intros cb Hcb. rewrite listeners_after_subscribeToArgs.
    unfold set_add. by rewrite decide_False.
Qed.

(** C8, as the code has it.  [updateArgs (id, args)] for an id without
    ArgSubscription raises no error and calls no listener, and it leaves
    the Registry Store, AvailableHooks and the ArgSubscriptions of the
    other ids as they are; but it creates the ArgSubscription of [id],
    holding [args] and no listener. *)
Theorem updateArgs_creates_lazily (id : string) (args : list Value) (st : Stores) :
  argSubscriptions st !! id = None →
  let r := updateArgs id args st in
  outcome_of r = Returned tt
  ∧ events_of r = []
  ∧ argSubscriptions (state_of r) !! id
    = Some {| sub_id := id; sub_args := args; argNotifiers := [] |}
  ∧ (∀ id', id' ≠ id → argSubscriptions (state_of r) !! id' = argSubscriptions st !! id')
  ∧ state (state_of r) = state st
  ∧ availableHooks (state_of r) = availableHooks st.
Proof.
  intros E. cbn. rewrite updateArgs_run. unfold listeners. rewrite E. cbn.
  rewrite lookup_insert_eq. repeat split; try done.
  intros id' Hne. by rewrite lookup_insert_ne.
Qed.

End Channel.

#[local] Existing Instance Demo.host.

(** C3 at work: a listener subscribing after [updateArgs ("a", ["x"])], and
    one subscribing to an id nobody has sent arguments to. *)
Lemma subscribeToArgs_catches_up_witness :
  events_of (subscribeToArgs "a" (SetArgs 0)
               (state_of (updateArgs "a" [VStr "x"] initial)))
  = [EListener (SetArgs 0) [VStr "x"]]
  ∧ events_of (subscribeToArgs "a" (SetArgs 0) initial) = [].
Proof.
  pose proof (subscribeToArgs_catches_up "a" (SetArgs 0) [VStr "x"] initial)
    as (Hafter & _ & _ & Habsent).
  split.
  - apply Hafter. discriminate.
  - apply Habsent. reflexivity.
Defined.

(** C4 at work: the second of three listeners throws. *)
Lemma updateArgs_broadcasts_witness :
  let st := run_calls [CSubscribeToArgs "a" (OtherListener 0);
                       CSubscribeToArgs "a" (OtherListener 1);
                       CSubscribeToArgs "a" (OtherListener 2)] initial in
  outcome_of (updateArgs "a" [VNum 7] st) = Returned tt
  ∧ events_of (updateArgs "a" [VNum 7] st)
    = [EListener (OtherListener 0) [VNum 7];
       EListener (OtherListener 1) [VNum 7];
       EConsoleError "Error in arg subscriber callback:" (VError "boom");
       EListener (OtherListener 2) [VNum 7]]
  ∧ listeners (state_of (subscribeToArgs "a" (OtherListener 3) st)) "a"
    = [OtherListener 0; OtherListener 1; OtherListener 2; OtherListener 3].
Proof.
  cbn zeta.
  destruct (updateArgs_broadcasts "a" [VNum 7]
              (run_calls [CSubscribeToArgs "a" (OtherListener 0);
                          CSubscribeToArgs "a" (OtherListener 1);
                          CSubscribeToArgs "a" (OtherListener 2)] initial))
    as (Hout & _ & _ & Hev & _ & Horder).
  split; [exact Hout|]. split.
  - rewrite Hev. vm_compute. reflexivity.
  - rewrite (Horder (OtherListener 3)).
    + vm_compute. reflexivity.
    + vm_compute. intros Hin.
      repeat (apply elem_of_cons in Hin as [Hin|Hin]; [discriminate|]).
      by apply elem_of_nil in Hin.
Defined.

(** C8 as stated fails: after [subscribe] and [unsubscribe] there is no
    ArgSubscription for the id, and a late [updateArgs] creates one. *)
Lemma updateArgs_stale_counterexample :
  let st := run_calls [CSubscribe (ForceUpdate 0); CUnsubscribe "0"] initial in
  argSubscriptions st !! "0" = None
  ∧ argSubscriptions (state_of (updateArgs "0" [VNum 1] st)) !! "0"
    = Some {| sub_id := "0"; sub_args := [VNum 1]; argNotifiers := [] |}
  ∧ state_of (updateArgs "0" [VNum 1] st) ≠ st.
Proof.
  cbn zeta. split; [|split].
  - vm_compute. reflexivity.
  - vm_compute. reflexivity.
  - intros Heq. apply (f_equal (λ s, argSubscriptions s !! "0")) in Heq.
    vm_compute in Heq. discriminate.
Qed.

Lemma updateArgs_creates_lazily_witness :
  let st := run_calls [CSubscribe (ForceUpdate 0); CUnsubscribe "0"] initial in
  events_of (updateArgs "0" [VNum 1] st) = []
  ∧ argSubscriptions (state_of (updateArgs "0" [VNum 1] st)) !! "0"
    = Some {| sub_id := "0"; sub_args := [VNum 1]; argNotifiers := [] |}.
Proof.
  pose proof (updateArgs_creates_lazily "0" [VNum 1]
                (run_calls [CSubscribe (ForceUpdate 0); CUnsubscribe "0"] initial)) as Hlazy.
  cbn zeta in *.
  destruct Hlazy as (_ & Hev & Hsub & _); [vm_compute; reflexivity|].
  split; assumption.
Defined.

End ArgumentChannel.

(** ** States reached by sequences of calls *)

Module Reachable.
Import Provider Runs Facts.

Section Reachable.
Context {host : Host}.

Lemma perform_state (call : CtxCall) (st : Stores) :
  state_of (perform call st) = effect_on_stores call st.
Proof.
  destruct call as [notify|id|id value|id|id f|id args|id cb|id cb];
    unfold perform, mbind, M_bind, bind, state_of; cbn [effect_on_stores].
  - by rewrite subscribe_run.
  - by rewrite unsubscribe_run.
  - destruct (state st !! id) as [entry|] eqn:E.
    + by rewrite (updateState_present _ _ _ _ E).
    + by rewrite (updateState_absent _ _ _ E).
  - by rewrite getState_run.
  - by rewrite registerHook_run.
  - by rewrite updateArgs_run.
  - rewrite subscribeToArgs_run. cbn zeta.
    case_bool_decide; [|done]. by destruct (listener_failure _ _).
  - by rewrite argUnsubscribe_run.
Qed.

Lemma run_calls_app (calls1 calls2 : list CtxCall) (st : Stores) :
  run_calls (calls1 ++ calls2) st = run_calls calls2 (run_calls calls1 st).
Proof. revert st. induction calls1 as [|c calls1 IH]; intros st; [done|]. cbn. apply IH. Qed.

(** *** The ids handed out *)

Lemma uuid_calls_effect (call : CtxCall) (st : Stores) :
  (uuid_calls st ≤ uuid_calls (effect_on_stores call st))%nat.
Proof.
  destruct call; cbn; try lia.
  - destruct (state st !! id); cbn; lia.
  - destruct (argSubscriptions st !! id); cbn; lia.
Qed.

Lemma uuid_calls_run (calls : list CtxCall) (st : Stores) :
  (uuid_calls st ≤ uuid_calls (run_calls calls st))%nat.
Proof.
  revert st. induction calls as [|c calls IH]; intros st; cbn; [lia|].
  rewrite perform_state. pose proof (uuid_calls_effect c st). specialize (IH (effect_on_stores c st)). lia.
Qed.

Lemma subscribed_ids_range (calls : list CtxCall) (st : Stores) (id : string) :
  id ∈ subscribed_ids calls st →
  ∃ k, (uuid_calls st ≤ k < uuid_calls (run_calls calls st))%nat ∧ id = randomUUID k.
Proof.
  revert st. induction calls as [|c calls IH]; intros st; cbn; [by intros ?%elem_of_nil|].
  rewrite elem_of_app, perform_state. intros [Hhead|Htail].
  - destruct c; try by apply elem_of_nil in Hhead.
    rewrite subscribe_run in Hhead. cbn in Hhead. apply list_elem_of_singleton in Hhead.
    exists (uuid_calls st). split; [|done].
    pose proof (uuid_calls_run calls (effect_on_stores (CSubscribe notify) st)) as Hle.
    assert (uuid_calls (effect_on_stores (CSubscribe notify) st) = S (uuid_calls st)) as Hs
      by reflexivity.
    lia.
  - destruct (IH _ Htail) as (k & Hk & ->). exists k. split; [|done].
    pose proof (uuid_calls_effect c st). lia.
Qed.

(** C9. In the stores any sequence of calls has produced, provided
    [crypto.randomUUID] never returns the same string twice:
    [subscribe (notify)] returns an id none of the earlier [subscribe]
    calls returned, and files under it an entry with that id, the given
    [notify] and the value [0], so that [getState (id)] returns a value
    that has no fields. *)
Theorem subscribe_allocates_fresh_entry (notify : Notify) (calls : list CtxCall) :
  Inj (=) (=) randomUUID →
  let st := run_calls calls initial in
  ∃ (id : string) (unsub : M Stores unit) (v : Stored),
    outcome_of (subscribe notify st) = Returned (id, unsub)
    ∧ (id ∉ subscribed_ids calls initial)
    ∧ state (state_of (subscribe notify st)) !! id
      = Some {| entry_id := id; entry_value := v; entry_notify := notify |}
    ∧ outcome_of (getState id (state_of (subscribe notify st))) = Returned (Some v)
    ∧ v = SNum 0
    ∧ own_fields v = ∅
    ∧ ∀ name, field (Some v) name = VUndefined.
Proof.
  intros Hinj st. eexists _, _, (SNum 0). rewrite subscribe_run. cbn.
  rewrite getState_run. cbn. rewrite lookup_insert_eq.
  repeat split; try done.
  intros (k & Hk & Heq)%subscribed_ids_range. apply Hinj in Heq.
  fold st in Hk. lia.
Qed.

(** *** Invariants *)

Lemma keyed_by_id_initial : keyed_by_id initial.
Proof. split; intros k x; cbn; by rewrite lookup_empty. Qed.

Lemma keyed_by_id_effect (call : CtxCall) (st : Stores) :
  keyed_by_id st → keyed_by_id (effect_on_stores call st).
Proof.
  intros [Hst Hsub].
  destruct call as [notify|id|id value|id|id f|id args|id cb|id cb]; cbn; try done.
  - split; [|done]. cbn. intros k e. rewrite lookup_insert.
    case_decide; [|by apply Hst]. by intros [= <-].
  - split; cbn; intros k x Hk; apply lookup_delete_Some in Hk as [_ Hk]; eauto.
  - destruct (state st !! id) as [entry|] eqn:E; [|done].
    split; [|done]. cbn. intros k e. rewrite lookup_insert.
    case_decide; [|by apply Hst]. intros [= <-]. cbn. subst k. by apply Hst.
  - split; [done|]. cbn. intros k sub. rewrite lookup_insert.
    case_decide; [|by apply Hsub]. intros [= <-]. subst k.
    destruct (argSubscriptions st !! id) as [old|] eqn:E; cbn; [by apply Hsub|done].
  - split; [done|]. cbn. intros k sub. rewrite lookup_insert.
    case_decide; [|by apply Hsub]. intros [= <-]. subst k.
    destruct (argSubscriptions st !! id) as [old|] eqn:E; cbn; [by apply Hsub|done].
  - destruct (argSubscriptions st !! id) as [old|] eqn:E; [|done].
    split; [done|]. cbn. intros k sub. rewrite lookup_insert.
    case_decide; [|by apply Hsub]. intros [= <-]. subst k. cbn. by apply Hsub.
Qed.

Lemma keyed_by_id_run (calls : list CtxCall) (st : Stores) :
  keyed_by_id st → keyed_by_id (run_calls calls st).
Proof.
  revert st. induction calls as [|c calls IH]; intros st Hst; [done|].
  cbn. rewrite perform_state. by apply IH, keyed_by_id_effect.
Qed.

Lemma keyed_at_most_one (st : Stores) (id : string) : keyed_by_id st → at_most_one st id.
Proof.
  intros [Hst Hsub]. split; [|split].
  - intros k1 k2 e1 e2 H1 H2 Hid1 Hid2.
    pose proof (Hst _ _ H1). pose proof (Hst _ _ H2).
    assert (k1 = k2) as -> by congruence. split; congruence.
  - intros k1 k2 s1 s2 H1 H2 Hid1 Hid2.
    pose proof (Hsub _ _ H1). pose proof (Hsub _ _ H2).
    assert (k1 = k2) as -> by congruence. split; congruence.
  - congruence.
Qed.

Lemma hooks_have_entries_effect (call : CtxCall) (st : Stores) :
  match call with
  | CRegisterHook id _ => is_Some (state st !! id)
  | _ => True
  end →
  hooks_have_entries st → hooks_have_entries (effect_on_stores call st).
Proof.
  intros Hguard Hst.
  destruct call as [notify|id|id value|id|id f|id args|id cb|id cb]; cbn; try done.
  - intros k Hk. cbn in *. rewrite lookup_insert. case_decide; [by eexists|by apply Hst].
  - intros k. cbn. rewrite !lookup_delete. case_decide; [by intros [? [=]]|by apply Hst].
  - destruct (state st !! id) as [entry|] eqn:E; [|done].
    intros k Hk. cbn in *. rewrite lookup_insert. case_decide; [by eexists|by apply Hst].
  - intros k. cbn. rewrite lookup_insert. case_decide; [by subst k|by apply Hst].
  - destruct (argSubscriptions st !! id); done.
Qed.

Lemma hooks_have_entries_run (calls : list CtxCall) (st : Stores) :
  hooks_have_entries st → registers_live_ids calls st →
  hooks_have_entries (run_calls calls st).
Proof.
  revert st. induction calls as [|c calls IH]; intros st Hst Hg; [done|].
  cbn in *. destruct Hg as [Hc Hg]. rewrite perform_state in *.
  apply IH; [|done]. by apply hooks_have_entries_effect.
Qed.

(** C10, as the code has it.  In the stores any sequence of calls has
    produced, every id has at most one RegistryEntry, at most one
    ArgSubscription and at most one AvailableHooks entry.  If moreover
    every [registerHook (id, _)] of the sequence was made while a
    RegistryEntry for [id] existed, then every id with an AvailableHooks
    entry has a RegistryEntry. *)
Theorem stores_invariant (calls : list CtxCall) :
  (∀ id, at_most_one (run_calls calls initial) id)
  ∧ (registers_live_ids calls initial → hooks_have_entries (run_calls calls initial)).
Proof.
  split.
  - intros id. apply keyed_at_most_one, keyed_by_id_run, keyed_by_id_initial.
  - apply hooks_have_entries_run. intros id. cbn. rewrite lookup_empty. by intros [? [=]].
Qed.

End Reachable.

#[local] Existing Instance Demo.host.

Lemma demo_randomUUID_inj : Inj (=) (=) (randomUUID (Host := Demo.host)).
Proof. cbn. apply _. Qed.

(** C9 on the concrete host: the third subscription. *)
Lemma subscribe_allocates_fresh_entry_witness :
  let calls := [CSubscribe (ForceUpdate 0); CSubscribe (ForceUpdate 1)] in
  ∃ id unsub v,
    outcome_of (subscribe (ForceUpdate 2) (run_calls calls initial)) = Returned (id, unsub)
    ∧ (id ∉ subscribed_ids calls initial)
    ∧ state (state_of (subscribe (ForceUpdate 2) (run_calls calls initial))) !! id
      = Some {| entry_id := id; entry_value := v; entry_notify := ForceUpdate 2 |}
    ∧ outcome_of (getState id (state_of (subscribe (ForceUpdate 2) (run_calls calls initial))))
      = Returned (Some v)
    ∧ v = SNum 0
    ∧ own_fields v = ∅
    ∧ ∀ name, field (Some v) name = VUndefined.
Proof.
  exact (subscribe_allocates_fresh_entry (ForceUpdate 2)
           [CSubscribe (ForceUpdate 0); CSubscribe (ForceUpdate 1)] demo_randomUUID_inj).
Defined.

Example subscribed_ids_demo :
  subscribed_ids [CSubscribe (ForceUpdate 0); CUpdateArgs "x" []; CSubscribe (ForceUpdate 1)] initial
  = ["0"; "1"].
Proof. vm_compute. reflexivity. Qed.

(** C10 as stated fails: [registerHook] after [unsubscribe] leaves an
    AvailableHooks entry for an id that has no RegistryEntry. *)
Lemma hooks_without_entry_counterexample :
  let st := run_calls [CSubscribe (ForceUpdate 0); CUnsubscribe "0"; CRegisterHook "0" 7] initial in
  availableHooks st !! "0" = Some 7 ∧ state st !! "0" = None ∧ ¬ hooks_have_entries st.
Proof.
  cbn zeta.
  assert (availableHooks (run_calls [CSubscribe (ForceUpdate 0); CUnsubscribe "0";
                                     CRegisterHook "0" 7] initial) !! "0" = Some 7) as Hh
    by (vm_compute; reflexivity).
  assert (state (run_calls [CSubscribe (ForceUpdate 0); CUnsubscribe "0";
                            CRegisterHook "0" 7] initial) !! "0" = None) as Hs
    by (vm_compute; reflexivity).
  split; [done|]. split; [done|].
  intros Hinv. destruct (Hinv "0") as [e He]; [by eexists|]. congruence.
Qed.

Lemma stores_invariant_witness :
  let calls := [CSubscribe (ForceUpdate 0); CRegisterHook "0" 7; CUpdateArgs "0" [VNum 1]] in
  registers_live_ids calls initial ∧ hooks_have_entries (run_calls calls initial).
Proof.
  cbn zeta.
  assert (registers_live_ids [CSubscribe (ForceUpdate 0); CRegisterHook "0" 7;
                              CUpdateArgs "0" [VNum 1]] initial) as Hg.
  { cbn. repeat split. vm_compute. by eexists. }
  split; [exact Hg|].
  exact (proj2 (stores_invariant _) Hg).
Defined.

End Reachable.

(** ** The Consumer Hook *)

Module ConsumerHook.
Import Provider Runs Facts Consumer.

Lemma some_from_false (p : Value → nat → bool) (l : list Value) (i : nat) :
  some_from p i l = false ↔ ∀ j x, l !! j = Some x → p x (i + j) = false.
Proof.
  revert i. induction l as [|y l IH]; intros i; cbn.
  - split; [|done]. intros _ j x. by rewrite lookup_nil.
  - rewrite orb_false_iff, IH. split.
    + intros [Hy Hl] [|j] x; cbn.
      * intros [= <-]. by rewrite Nat.add_0_r.
      * intros Hx. rewrite <- Nat.add_succ_comm. by apply Hl.
    + intros Hall. split.
      * specialize (Hall 0 y eq_refl). by rewrite Nat.add_0_r in Hall.
      * intros j x Hx. rewrite Nat.add_succ_comm. by apply (Hall (S j)).
Qed.

Section AnyContext.
Context {S : Type} (ctx : RemoteHookContextType S).

Lemma hasChanged_false (args current : JsArray) :
  length (arr_elems args) = length (arr_elems current) →
  (∀ i, i < length (arr_elems args) →
        strict_eq (index (arr_elems args) i) (index (arr_elems current) i) = true) →
  hasChanged args current = false.
Proof.
  intros Hlen Hall. unfold hasChanged.
  rewrite Hlen, Nat.eqb_refl. cbn. apply some_from_false. intros j x Hx. cbn.
  specialize (Hall j (lookup_lt_Some _ _ _ Hx)).
  unfold strict_ne, index in *. rewrite Hx in Hall. cbn in Hall. by rewrite Hall.
Qed.

Lemma hasChanged_true (args current : JsArray) (i : nat) :
  i < length (arr_elems args) →
  strict_eq (index (arr_elems args) i) (index (arr_elems current) i) = false →
  hasChanged args current = true.
Proof.
  intros Hi Hne. unfold hasChanged. apply orb_true_iff. right.
  apply not_false_iff_true. intros Hall.
  destruct (lookup_lt_is_Some_2 _ _ Hi) as [x Hx].
  pose proof (proj1 (some_from_false _ _ _) Hall i x Hx) as Hp. cbn in Hp.
  unfold strict_ne, index in *. rewrite Hx in Hne. cbn in Hne. by rewrite Hne in Hp.
Qed.

Lemma hasChanged_length (args current : JsArray) :
  length (arr_elems args) ≠ length (arr_elems current) →
  hasChanged args current = true.
Proof.
  intros Hlen. unfold hasChanged. apply orb_true_iff. left.
  apply negb_true_iff, Nat.eqb_neq, Hlen.
Qed.

Lemma settled_when_unmounted (eff : LoadEffect S) (r : Settlement) (s : S) :
  isMounted eff = false → loadHook_settled ctx eff r s = (Returned tt, s, []).
Proof. intros Hm. unfold loadHook_settled, try_catch. destruct r; by rewrite Hm. Qed.
End AnyContext.

(** C5.  Whatever the context, once the still-mounted flag is cleared the
    continuation of the load, on success as on failure, calls nothing:
    it returns with the state as it found it and no event.  With the
    provider's context: mounting adds no AvailableHooks entry; the cleanup
    clears the flag and leaves no entry for the id in any store; and the
    settled load, whenever it comes and whatever the stores hold by then,
    leaves them as they are. *)
Theorem unmounted_load_writes_nothing {host : Host} :
  (∀ (S : Type) (ctx : RemoteHookContextType S) (eff : LoadEffect S) (r : Settlement) (s : S),
      isMounted eff = false → loadHook_settled ctx eff r s = (Returned tt, s, []))
  ∧ (∀ (component : nat) (args : JsArray) (st : Stores),
      ∃ eff,
        outcome_of (mount provider_context component args st) = Returned eff
        ∧ isMounted eff = true
        ∧ availableHooks (state_of (mount provider_context component args st))
          = availableHooks st
        ∧ ∀ st' : Stores,
            ∃ eff',
              outcome_of (cleanup eff st') = Returned eff'
              ∧ isMounted eff' = false
              ∧ load_id eff' = load_id eff
              ∧ no_entries (state_of (cleanup eff st')) (load_id eff)
              ∧ ∀ (r : Settlement) (st'' : Stores),
                  loadHook_settled provider_context eff' r st'' = (Returned tt, st'', [])).
Proof.
  split; [intros; by apply settled_when_unmounted|].
  intros component args st.
  unfold mount, cleanup, provider_context; cbn [ctx_subscribe ctx_updateState].
  unfold mbind, M_bind, bind. rewrite subscribe_run. cbn zeta. cbn iota beta.
  erewrite updateState_present; [|cbn; apply lookup_insert_eq]. cbn.
  eexists. repeat split.
  intros st'. eexists. repeat split; try apply lookup_delete_eq.
  intros r st''. by apply settled_when_unmounted.
Qed.

(** C6.  Given the last sequence forwarded ([argsRef.current]) and the
    [args] of a render: if both have the same length and every position
    holds identical ([===]) elements, nothing is forwarded, whatever the
    identity of the array, and [argsRef.current] stays.  If some position
    of [args] holds an element different from the one at that position of
    [argsRef.current] (a position past its end holds [undefined]), or if
    the lengths differ, [updateArgs (id, args)] is called, once, and
    [argsRef.current] becomes [args]. *)
Theorem forward_args_by_value {S : Type} (ctx : RemoteHookContextType S)
    (id0 id : string) (argsRef args : JsArray) (s : S) :
  (length (arr_elems args) = length (arr_elems argsRef) →
   (∀ i, i < length (arr_elems args) →
         strict_eq (index (arr_elems args) i) (index (arr_elems argsRef) i) = true) →
   forward_args ctx id argsRef args s = (Returned argsRef, s, []))
  ∧ ((∃ i, i < length (arr_elems args)
           ∧ strict_eq (index (arr_elems args) i) (index (arr_elems argsRef) i) = false)
     ∨ length (arr_elems args) ≠ length (arr_elems argsRef) →
     forward_args ctx id argsRef args s
     = (ctx_updateArgs ctx id (arr_elems args);; mret args) s
     ∧ forward_args (recording_context id0) id argsRef args s
       = (Returned args, s, [ECtx (CUpdateArgs id (arr_elems args))])).
Proof.
  split.
  - intros Hlen Hall. unfold forward_args. by rewrite hasChanged_false.
  - intros Hdiff.
    assert (hasChanged args argsRef = true) as Hchanged.
    { destruct Hdiff as [(i & Hi & Hne)|Hlen].
      - by apply (hasChanged_true _ _ i).
      - by apply hasChanged_length. }
    unfold forward_args. by rewrite Hchanged.
Qed.

(** C6 on the specification's example: [[1, 2]] rendered again as a new
    array forwards nothing, [[1, 3]] is forwarded once; so are a longer
    and a shorter sequence. *)
Lemma forward_args_by_value_witness :
  forward_args (recording_context (S := unit) "") "id" (Demo.one_two 1) (Demo.one_two 2) tt
  = (Returned (Demo.one_two 1), tt, [])
  ∧ forward_args (recording_context (S := unit) "") "id" (Demo.one_two 1) (Demo.one_three 2) tt
    = (Returned (Demo.one_three 2), tt, [ECtx (CUpdateArgs "id" [VNum 1; VNum 3])])
  ∧ forward_args (recording_context (S := unit) "") "id" (Demo.one_two 1)
      {| arr_ref := 3; arr_elems := [VNum 1; VNum 3; VNum 4] |} tt
    = (Returned {| arr_ref := 3; arr_elems := [VNum 1; VNum 3; VNum 4] |}, tt,
       [ECtx (CUpdateArgs "id" [VNum 1; VNum 3; VNum 4])])
  ∧ forward_args (recording_context (S := unit) "") "id" (Demo.one_two 1)
      {| arr_ref := 4; arr_elems := [VNum 1] |} tt
    = (Returned {| arr_ref := 4; arr_elems := [VNum 1] |}, tt,
       [ECtx (CUpdateArgs "id" [VNum 1])]).
Proof.
  split; [|split; [|split]].
  - refine (proj1 (forward_args_by_value (recording_context "") "" "id"
                     (Demo.one_two 1) (Demo.one_two 2) tt) eq_refl _).
    intros [|[|i]] Hi; [reflexivity|reflexivity|cbn in Hi; lia].
  - refine (proj2 (proj2 (forward_args_by_value (recording_context "") "" "id"
                     (Demo.one_two 1) (Demo.one_three 2) tt) _)).
    left. exists 1. split; [cbn; lia|reflexivity].
  - refine (proj2 (proj2 (forward_args_by_value (recording_context "") "" "id"
                     (Demo.one_two 1)
                     {| arr_ref := 3; arr_elems := [VNum 1; VNum 3; VNum 4] |} tt) _)).
    left. exists 1. split; [cbn; lia|reflexivity].
  - refine (proj2 (proj2 (forward_args_by_value (recording_context "") "" "id"
                     (Demo.one_two 1) {| arr_ref := 4; arr_elems := [VNum 1] |} tt) _)).
    right. cbn. lia.
Defined.

Example two_renders_same_elements :
  recorded (events_of (two_renders (recording_context (S := unit) "") "id"
                                   (Demo.one_two 1) (Demo.one_two 2) tt)) = [].
Proof. reflexivity. Qed.

Example two_renders_new_element :
  recorded (events_of (two_renders (recording_context (S := unit) "") "id"
                                   (Demo.one_two 1) (Demo.one_three 2) tt))
  = [CUpdateArgs "id" [VNum 1; VNum 3]].
Proof. reflexivity. Qed.

#[local] Existing Instance Demo.host.

(** C5 on the concrete host: a load that resolves for an effect whose flag
    is cleared. *)
Lemma unmounted_load_writes_nothing_witness :
  let eff := {| load_id := "0"; load_unsubscribe := unsubscribe "0";
                load_args := [VNum 1]; isMounted := false |} in
  isMounted eff = false
  ∧ loadHook_settled provider_context eff (Resolved 7) initial = (Returned tt, initial, []).
Proof.
  split; [reflexivity|].
  apply (proj1 unmounted_load_writes_nothing). reflexivity.
Defined.

Example unmount_before_resolution :
  match mount provider_context 0 (Demo.one_two 1) initial with
  | (Returned eff, st1, _) =>
      match cleanup eff st1 with
      | (Returned eff', st2, _) =>
          loadHook_settled provider_context eff' (Resolved 7) st2 = (Returned tt, st2, [])
          ∧ loadHook_settled provider_context eff' (Rejected (VError "not found")) st2
            = (Returned tt, st2, [])
          ∧ availableHooks st2 !! "0" = None
          ∧ availableHooks (state_of (loadHook_settled provider_context eff (Resolved 7) st1)) !! "0"
            = Some 7
      | _ => False
      end
  | _ => False
  end.
Proof. vm_compute. repeat split. Qed.

End ConsumerHook.

(** ** The Execution Unit *)

Module ExecutionUnit.
Import Provider Runs Facts Executor.

Section Unit.
Context {host : Host}.

Lemma render_run {S : Type} (props : Props) (fb : Fiber S) (s : S) :
  render props fb s =
    (match hook_body (hookFunction props) (cells fb) (args fb) with
     | Returned hookResult => Returned (RNull, hookResult)
     | Thrown err => Thrown err
     end, s, [EInvokeHook (hookFunction props) (args fb)]).
Proof.
  unfold render, mbind, M_bind, bind, emit.
  by destruct (hook_body _ _ _).
Qed.

Lemma result_changed_differs {S : Type} (props : Props) (fb : Fiber S)
    (previous hookResult : Value) (id' : string) :
  reported fb = Some (previous, id') → previous ≠ hookResult →
  result_changed props fb hookResult = true.
Proof.
  intros Hrep Hne. unfold result_changed, object_is.
  by rewrite Hrep, bool_decide_false.
Qed.

(** C7.  Every render of a [HookExecutor], whatever its props, its fiber
    and the context, starts by calling the remote hook with the current
    args; if the hook returns, the component returns [null], and if it
    throws, so does the render.  A mounted unit is subscribed under its
    id, by which it is keyed.  When the hook's result differs from the
    one reported at the previous render, the commit calls
    [updateState (id, {hookResult: result})], once; and with the
    provider's context the RegistryEntry of the id, when there is one,
    then holds the result in its [hookResult] field. *)
Theorem executor_invokes_and_reports :
  (∀ (S : Type) (ctx : RemoteHookContextType S) (props : Props) (fb : Fiber S) (s : S),
      (∃ rest, events_of (render_pass ctx props fb s)
               = EInvokeHook (hookFunction props) (args fb) :: rest)
      ∧ (∀ err, hook_body (hookFunction props) (cells fb) (args fb) = Thrown err →
           render_pass ctx props fb s
           = (Thrown err, s, [EInvokeHook (hookFunction props) (args fb)]))
      ∧ (∀ hookResult,
           hook_body (hookFunction props) (cells fb) (args fb) = Returned hookResult →
           render props fb s
           = (Returned (RNull, hookResult), s,
              [EInvokeHook (hookFunction props) (args fb)])))
  ∧ (∀ (S : Type) (id0 : string) (props : Props) (fb : Fiber S) (s : S)
       (hookResult previous : Value) (id' : string) (unsubscribe : M S unit),
      hook_body (hookFunction props) (cells fb) (args fb) = Returned hookResult →
      reported fb = Some (previous, id') → previous ≠ hookResult →
      subscription fb = Some (id props, unsubscribe) →
      ∃ fb', render_pass (recording_context id0) props fb s
             = (Returned (RNull, fb'), s,
                [EInvokeHook (hookFunction props) (args fb);
                 ECtx (CUpdateState (id props) {[ "hookResult" := hookResult ]})])
             ∧ reported fb' = Some (hookResult, id props))
  ∧ (∀ (props : Props) (fb : Fiber Stores) (st : Stores)
       (hookResult previous : Value) (id' : string) (unsubscribe : M Stores unit)
       (entry : StateEntry),
      hook_body (hookFunction props) (cells fb) (args fb) = Returned hookResult →
      reported fb = Some (previous, id') → previous ≠ hookResult →
      subscription fb = Some (id props, unsubscribe) →
      state st !! id props = Some entry →
      field (entry_value <$>
               state (state_of (render_pass provider_context props fb st)) !! id props)
            "hookResult"
      = hookResult).
Proof.
  split; [|split].
  - intros S ctx props fb s. split; [|split].
    + destruct (bind_events_prefix (render props fb)
                  (λ '(output, hookResult),
                     fb' ← commit ctx props fb hookResult; mret (output, fb')) s)
        as [rest Hrest].
      exists rest. unfold render_pass. rewrite Hrest. by rewrite render_run.
    + intros err Herr. unfold render_pass, mbind, M_bind, bind.
      by rewrite render_run, Herr.
    + intros hookResult Hret. by rewrite render_run, Hret.
  - intros S id0 props fb s hookResult previous id' unsubscribe Hret Hrep Hne Hsub.
    eexists. unfold render_pass, mbind, M_bind, bind. rewrite render_run, Hret.
    unfold commit, subscribe_effect, report_effect, mbind, M_bind, bind.
    rewrite Hsub, bool_decide_true by done.
    rewrite (result_changed_differs _ _ _ _ _ Hrep Hne). cbn. done.
  - intros props fb st hookResult previous id' unsubscribe entry Hret Hrep Hne Hsub Hentry.
    unfold render_pass, mbind, M_bind, bind. rewrite render_run, Hret.
    unfold commit, subscribe_effect, report_effect, mbind, M_bind, bind.
    rewrite Hsub, bool_decide_true by done.
    rewrite (result_changed_differs _ _ _ _ _ Hrep Hne).
    cbn [mret M_ret ret provider_context ctx_updateState].
    rewrite (updateState_present _ _ _ _ Hentry).
    destruct (notify_failure (entry_notify entry)); cbn;
      rewrite lookup_insert_eq; cbn;
      by erewrite lookup_union_Some_l; [|apply lookup_singleton_eq].
Qed.

End Unit.

#[local] Existing Instance Demo.host.

(** C7 on the concrete host: a unit that reported ["a"] and is rendered
    with the args [["b"]]. *)
Lemma executor_invokes_and_reports_witness :
  let props := {| id := "0"; hookFunction := 7 |} in
  let fb : Fiber Stores :=
    {| fiber_key := 0; args := [VStr "b"]; cells := [];
       subscription := Some ("0", argUnsubscribe "0" (SetArgs 0));
       reported := Some (VStr "a", "0") |} in
  let st := run_calls [CSubscribe (ForceUpdate 0)] initial in
  render props fb st = (Returned (RNull, VStr "b"), st, [EInvokeHook 7 [VStr "b"]])
  ∧ field (entry_value <$> state (state_of (render_pass provider_context props fb st)) !! "0")
          "hookResult" = VStr "b".
Proof.
  cbn zeta. destruct executor_invokes_and_reports as (Hrender & _ & Hstore). split.
  - destruct (Hrender Stores provider_context {| id := "0"; hookFunction := 7 |}
                {| fiber_key := 0; args := [VStr "b"]; cells := [];
                   subscription := Some ("0", argUnsubscribe "0" (SetArgs 0));
                   reported := Some (VStr "a", "0") |}
                (run_calls [CSubscribe (ForceUpdate 0)] initial)) as (_ & _ & Hnull).
    apply Hnull. reflexivity.
  - apply (Hstore {| id := "0"; hookFunction := 7 |} _ _ (VStr "b") (VStr "a") "0"
             (argUnsubscribe "0" (SetArgs 0))
             {| entry_id := "0"; entry_value := SNum 0; entry_notify := ForceUpdate 0 |});
      [reflexivity|reflexivity|discriminate|reflexivity|vm_compute; reflexivity].
Defined.

Example mount_and_catch_up :
  let st := run_calls [CSubscribe (ForceUpdate 0); CUpdateArgs "0" [VStr "a"]] initial in
  events_of (render_pass provider_context {| id := "0"; hookFunction := 7 |} (mounting 0 []) st)
  = [EInvokeHook 7 []; EListener (SetArgs 0) [VStr "a"]; ENotify (ForceUpdate 0)].
Proof. vm_compute. reflexivity. Qed.

End ExecutionUnit.

(** ** Further laws of the stores *)

Module StoreLaws.
Import Provider Runs Facts.

Lemma stores_eq (st1 st2 : Stores) :
  state st1 = state st2 → availableHooks st1 = availableHooks st2 →
  argSubscriptions st1 = argSubscriptions st2 → uuid_calls st1 = uuid_calls st2 →
  st1 = st2.
Proof. destruct st1, st2. cbn. by intros -> -> -> ->. Qed.

Lemma state_of_triple {S A : Type} (o : Outcome A) (s : S) (t : list Event) :
  state_of (o, s, t) = s.
Proof. reflexivity. Qed.

Lemma set_delete_not_elem {A} `{EqDecision A} (x : A) (s : list A) : x ∉ set_delete x s.
Proof. unfold set_delete. rewrite list_elem_of_filter. by intros [? _]. Qed.

Lemma set_delete_absent {A} `{EqDecision A} (x : A) (s : list A) :
  x ∉ s → set_delete x s = s.
Proof.
  unfold set_delete. induction s as [|y s IH]; [done|].
  intros Hx. apply not_elem_of_cons in Hx as [Hne Hx].
  rewrite filter_cons_True by done. by rewrite IH.
Qed.

Lemma set_delete_set_add {A} `{EqDecision A} (x : A) (s : list A) :
  x ∉ s → set_delete x (set_add x s) = s.
Proof.
  intros Hx. unfold set_add. rewrite decide_False by done.
  unfold set_delete. rewrite filter_app, filter_cons_False, filter_nil, app_nil_r by naive_solver.
  by apply set_delete_absent.
Qed.

Lemma set_add_NoDup {A} `{EqDecision A} (x : A) (s : list A) :
  NoDup s → NoDup (set_add x s).
Proof.
  intros Hs. unfold set_add. case_decide; [done|].
  apply NoDup_app. split; [done|]. split; [|apply NoDup_singleton].
  intros y Hy ->%list_elem_of_singleton. done.
Qed.

Lemma set_delete_NoDup {A} `{EqDecision A} (x : A) (s : list A) :
  NoDup s → NoDup (set_delete x s).
Proof. apply NoDup_filter. Qed.

Section Laws.
Context {host : Host}.

Lemma elem_of_invoked_broadcast (ls : list Listener) (args : list Value) cb a :
  (cb, a) ∈ invoked (broadcast_trace ls args) ↔ cb ∈ ls ∧ a = args.
Proof.
  rewrite ArgumentChannel.invoked_broadcast, list_elem_of_fmap. split.
  - intros (x & [= -> ->] & Hx). done.
  - intros [Hx ->]. by exists cb.
Qed.

Lemma listeners_after_argUnsubscribe (id : string) (cb : Listener) (st : Stores) :
  listeners (state_of (argUnsubscribe id cb st)) id = set_delete cb (listeners st id).
Proof.
  rewrite argUnsubscribe_run. unfold listeners. cbn.
  destruct (argSubscriptions st !! id) as [sub|] eqn:E; cbn.
  - by rewrite lookup_insert_eq.
  - by rewrite E.
Qed.

Lemma forEach_delete (ids : list string) (st : Stores) :
  forEach ids (λ id, modify (with_state (delete id))) st
  = (Returned tt, with_state (λ m, foldl (λ m' id, delete id m') m ids) st, []).
Proof.
  revert st. induction ids as [|id ids IH]; intros st.
  - destruct st. done.
  - cbn [forEach]. unfold mbind, M_bind, bind, modify. rewrite IH. done.
Qed.

Lemma foldl_delete_lookup (ids : list string) (m : gmap string StateEntry) (k : string) :
  foldl (λ m' id, delete id m') m ids !! k = if bool_decide (k ∈ ids) then None else m !! k.
Proof.
  revert m. induction ids as [|id ids IH]; intros m; [done|]. cbn.
  rewrite IH, lookup_delete. case_bool_decide as Hin.
  - rewrite bool_decide_true; [done|by apply elem_of_cons; right].
  - case_decide as Hk.
    + subst. rewrite bool_decide_true; [done|by apply elem_of_cons; left].
    + rewrite bool_decide_false; [done|]. by intros [?|?]%elem_of_cons.
Qed.

(** X1.  [unsubscribe] of one id leaves the entries of every other id, in
    the three stores, as they are. *)
Theorem unsubscribe_isolated (id id' : string) (st : Stores) :
  id' ≠ id →
  let st1 := state_of (unsubscribe id st) in
  state st1 !! id' = state st !! id'
  ∧ availableHooks st1 !! id' = availableHooks st !! id'
  ∧ argSubscriptions st1 !! id' = argSubscriptions st !! id'.
Proof.
  intros Hne. cbn zeta. rewrite unsubscribe_run. cbn.
  by rewrite !lookup_delete_ne.
Qed.

(** X2.  After [unsubscribe (id)], whatever the stores held, a late
    [updateState (id, patch)] changes nothing, notifies nobody and returns
    normally, and [getState (id)] is [undefined]. *)
Theorem stale_updateState_ignored (id : string) (patch : gmap string Value) (st : Stores) :
  let st1 := state_of (unsubscribe id st) in
  updateState id patch st1 = (Returned tt, st1, [])
  ∧ outcome_of (getState id st1) = Returned None.
Proof.
  cbn zeta. rewrite unsubscribe_run. cbn. split.
  - apply updateState_absent. cbn. apply lookup_delete_eq.
  - rewrite getState_run. cbn. by rewrite lookup_delete_eq.
Qed.

(** X3.  Two [updateState] calls for the same id leave the stores that one
    call with the merged patch [{...p1, ...p2}] leaves; when the entry
    exists each of the two calls notifies once. *)
Theorem updateState_twice (id : string) (p1 p2 : gmap string Value) (st : Stores) :
  state_of (updateState id p2 (state_of (updateState id p1 st)))
  = state_of (updateState id (p2 ∪ p1) st)
  ∧ (∀ entry, state st !! id = Some entry →
       events_of (updateState id p1 st) = [ENotify (entry_notify entry)]
       ∧ events_of (updateState id p2 (state_of (updateState id p1 st)))
         = [ENotify (entry_notify entry)]).
Proof.
  destruct (state st !! id) as [entry|] eqn:E.
  - rewrite (updateState_present id p1 st entry E).
    rewrite (updateState_present id (p2 ∪ p1) st entry E).
    unfold state_of, events_of. cbn [fst snd].
    erewrite updateState_present; [|cbn; apply lookup_insert_eq]. cbn [fst snd]. split.
    + apply stores_eq; cbn; try done.
      rewrite insert_insert_eq. unfold set_value, spread. cbn.
      by rewrite (assoc_L (∪)).
    + by intros ? [= <-].
  - rewrite (updateState_absent id p1 st E), (updateState_absent id (p2 ∪ p1) st E).
    unfold state_of, events_of. cbn [fst snd].
    rewrite (updateState_absent id p2 st E). split; [done|]. by intros ? [=].
Qed.

(** X4.  When the entry's [notify] throws, [updateState] throws the same
    value to its caller, after the merged value has been stored. *)
Theorem updateState_notify_throws (id : string) (patch : gmap string Value) (st : Stores)
    (entry : StateEntry) (err : Value) :
  state st !! id = Some entry →
  notify_failure (entry_notify entry) = Some err →
  let r := updateState id patch st in
  outcome_of r = Thrown err
  ∧ events_of r = [ENotify (entry_notify entry)]
  ∧ outcome_of (getState id (state_of r)) = Returned (Some (spread (entry_value entry) patch)).
Proof.
  intros E Hfail. cbn zeta. rewrite (updateState_present _ _ _ _ E), Hfail. cbn.
  rewrite getState_run. cbn. by rewrite lookup_insert_eq.
Qed.

(** X5.  [registerHook] never looks at the Registry Store: it sets the
    AvailableHooks entry of the id whether or not a RegistryEntry exists,
    a second registration replaces the first, and the entries of the other
    ids and the two other stores stay as they are. *)
Theorem registerHook_last_wins (id : string) (f g : HookFn) (st : Stores) :
  let st1 := state_of (registerHook id f st) in
  let st2 := state_of (registerHook id g st1) in
  outcome_of (registerHook id f st) = Returned tt
  ∧ availableHooks st1 !! id = Some f
  ∧ st2 = state_of (registerHook id g st)
  ∧ availableHooks st2 !! id = Some g
  ∧ (∀ id', id' ≠ id → availableHooks st2 !! id' = availableHooks st !! id')
  ∧ state st2 = state st
  ∧ argSubscriptions st2 = argSubscriptions st.
Proof.
  cbn zeta. rewrite !registerHook_run. cbn.
  repeat split; try apply lookup_insert_eq.
  - apply stores_eq; cbn; try done. by rewrite insert_insert_eq.
  - intros id' Hne. by rewrite !lookup_insert_ne.
Qed.

(** X6.  Of two [updateArgs] calls for the same id the second one wins:
    the stores are those the second call alone leaves, and its broadcast
    reaches the same listeners. *)
Theorem updateArgs_twice (id : string) (A B : list Value) (st : Stores) :
  let st1 := state_of (updateArgs id A st) in
  state_of (updateArgs id B st1) = state_of (updateArgs id B st)
  ∧ events_of (updateArgs id B st1) = broadcast_trace (listeners st id) B
  ∧ (sub_args <$> argSubscriptions (state_of (updateArgs id B st1)) !! id) = Some B.
Proof.
  cbn zeta. rewrite !updateArgs_run. cbn. rewrite lookup_insert_eq. cbn.
  split; [|split].
  - apply stores_eq; cbn; try done. rewrite insert_insert_eq.
    by destruct (argSubscriptions st !! id).
  - unfold listeners. cbn. rewrite lookup_insert_eq.
    by destruct (argSubscriptions st !! id).
  - rewrite lookup_insert_eq. by destruct (argSubscriptions st !! id).
Qed.

(** X7.  [updateArgs (id, args)] reaches the listeners of [id] only, each
    with [args], and leaves the ArgSubscriptions of the other ids, the
    Registry Store and AvailableHooks as they are. *)
Theorem updateArgs_isolated (id : string) (args : list Value) (st : Stores) :
  let r := updateArgs id args st in
  (∀ cb a, (cb, a) ∈ invoked (events_of r) → cb ∈ listeners st id ∧ a = args)
  ∧ (∀ id', id' ≠ id →
       argSubscriptions (state_of r) !! id' = argSubscriptions st !! id'
       ∧ listeners (state_of r) id' = listeners st id')
  ∧ state (state_of r) = state st
  ∧ availableHooks (state_of r) = availableHooks st
  ∧ recorded (events_of r) = [] ∧ (∀ n, ENotify n ∉ events_of r).
Proof.
  cbn zeta. rewrite updateArgs_run. unfold state_of, events_of. cbn [fst snd].
  split; [|split; [|split; [|split; [|split]]]]; try done.
  - intros cb a Hin. by apply elem_of_invoked_broadcast in Hin.
  - intros id' Hne. unfold listeners. cbn. by rewrite lookup_insert_ne.
  - induction (listeners st id) as [|cb ls IH]; [done|].
    rewrite ArgumentChannel.broadcast_trace_cons. unfold recorded in *.
    rewrite omap_app, IH. by destruct (listener_failure cb args).
  - intros n. induction (listeners st id) as [|cb ls IH]; [apply not_elem_of_nil|].
    rewrite ArgumentChannel.broadcast_trace_cons, elem_of_app. intros [Hin|Hin]; [|done].
    destruct (listener_failure cb args);
      repeat (apply elem_of_cons in Hin as [Hin|Hin]; [discriminate|]);
      by apply elem_of_nil in Hin.
Qed.

(** X19.  [subscribe] writes one RegistryEntry and nothing else: the
    entries of the other ids, AvailableHooks and the ArgSubscriptions are as
    before, nothing is logged and nobody is notified.  It does not look at
    what the Registry Store holds under the id it drew: an entry found
    there is replaced by the new one, with the value [0]. *)
Theorem subscribe_frame (notify : Notify) (st : Stores) :
  let r := subscribe notify st in
  let id := randomUUID (uuid_calls st) in
  events_of r = []
  ∧ state (state_of r) !! id
    = Some {| entry_id := id; entry_value := SNum 0; entry_notify := notify |}
  ∧ (∀ id', id' ≠ id → state (state_of r) !! id' = state st !! id')
  ∧ availableHooks (state_of r) = availableHooks st
  ∧ argSubscriptions (state_of r) = argSubscriptions st
  ∧ uuid_calls (state_of r) = S (uuid_calls st).
Proof.
  cbn zeta. rewrite subscribe_run. unfold events_of. rewrite state_of_triple.
  cbn [snd state availableHooks argSubscriptions uuid_calls].
  rewrite lookup_insert_eq. repeat split.
  intros id' Hne. by rewrite lookup_insert_ne.
Qed.

End Laws.
#[local] Existing Instance Demo.host.

Lemma unsubscribe_isolated_witness :
  let st := run_calls [CSubscribe (ForceUpdate 0); CSubscribe (ForceUpdate 1)] initial in
  "1" ≠ "0"
  ∧ state (state_of (unsubscribe "0" st)) !! "1" = state st !! "1"
  ∧ is_Some (state st !! "1").
Proof.
  cbn zeta. split; [discriminate|]. split.
  - apply (unsubscribe_isolated "0" "1"). discriminate.
  - vm_compute. by eexists.
Defined.

Lemma updateState_twice_witness :
  let st := run_calls [CSubscribe (ForceUpdate 0)] initial in
  events_of (updateState "0" {[ "b" := VNum 2 ]}
               (state_of (updateState "0" {[ "a" := VNum 1 ]} st)))
  = [ENotify (ForceUpdate 0)].
Proof.
  cbn zeta.
  apply (proj2 (updateState_twice "0" {[ "a" := VNum 1 ]} {[ "b" := VNum 2 ]}
                  (run_calls [CSubscribe (ForceUpdate 0)] initial))
           {| entry_id := "0"; entry_value := SNum 0; entry_notify := ForceUpdate 0 |}).
  vm_compute. reflexivity.
Defined.

Lemma registerHook_last_wins_witness :
  "b" ≠ "a"
  ∧ availableHooks (state_of (registerHook "a" 2 (state_of (registerHook "a" 1 initial)))) !! "b"
    = availableHooks initial !! "b".
Proof.
  split; [discriminate|].
  destruct (registerHook_last_wins "a" 1 2 initial) as (_ & _ & _ & _ & Hother & _).
  apply Hother. discriminate.
Defined.

Lemma updateArgs_isolated_witness :
  let st := run_calls [CSubscribeToArgs "a" (SetArgs 0); CSubscribeToArgs "b" (SetArgs 1)] initial in
  "b" ≠ "a"
  ∧ listeners (state_of (updateArgs "a" [VNum 1] st)) "b" = [SetArgs 1]
  ∧ invoked (events_of (updateArgs "a" [VNum 1] st)) = [(SetArgs 0, [VNum 1])].
Proof.
  cbn zeta. split; [discriminate|].
  destruct (updateArgs_isolated "a" [VNum 1]
              (run_calls [CSubscribeToArgs "a" (SetArgs 0); CSubscribeToArgs "b" (SetArgs 1)]
                 initial)) as (_ & Hother & _).
  split.
  - destruct (Hother "b" ltac:(discriminate)) as [_ Hls]. rewrite Hls. vm_compute. reflexivity.
  - vm_compute. reflexivity.
Defined.

Lemma subscribe_frame_witness :
  let st := run_calls [CSubscribe (ForceUpdate 0)] initial in
  "0" ≠ randomUUID (uuid_calls st)
  ∧ state (state_of (subscribe (ForceUpdate 1) st)) !! "0" = state st !! "0".
Proof.
  cbn zeta. split; [vm_compute; discriminate|].
  destruct (subscribe_frame (ForceUpdate 1) (run_calls [CSubscribe (ForceUpdate 0)] initial))
    as (_ & _ & Hother & _).
  apply Hother. vm_compute. discriminate.
Defined.

End StoreLaws.

(** Examples on a host whose callbacks fail. *)

Module FailingExamples.
Import Provider Runs.

#[local] Existing Instance Failing.host.

Lemma updateState_notify_throws_witness :
  let st := run_calls [CSubscribe (OtherNotify 1)] initial in
  outcome_of (updateState "0" {[ "a" := VNum 1 ]} st) = Thrown (VError "notify")
  ∧ outcome_of (getState "0" (state_of (updateState "0" {[ "a" := VNum 1 ]} st)))
    = Returned (Some (SObj {[ "a" := VNum 1 ]})).
Proof.
  cbn zeta.
  destruct (StoreLaws.updateState_notify_throws "0" {[ "a" := VNum 1 ]}
              (run_calls [CSubscribe (OtherNotify 1)] initial)
              {| entry_id := "0"; entry_value := SNum 0; entry_notify := OtherNotify 1 |}
              (VError "notify")) as (Hout & _ & Hget);
    [vm_compute; reflexivity|reflexivity|].
  split; [exact Hout|]. rewrite Hget. reflexivity.
Defined.

End FailingExamples.

(** ** Further laws of the listener sets and of reachable stores *)

Module ChannelLaws.
Import Provider Runs Facts StoreLaws.

Section Laws.
Context {host : Host}.

Lemma listeners_effect_other (call : CtxCall) (st : Stores) (id : string) :
  listeners (effect_on_stores call st) id = listeners st id
  ∨ (∃ cb, listeners (effect_on_stores call st) id = set_add cb (listeners st id))
  ∨ (∃ cb, listeners (effect_on_stores call st) id = set_delete cb (listeners st id))
  ∨ listeners (effect_on_stores call st) id = [].
Proof.
  unfold listeners.
  destruct call as [notify|i|i value|i|i f|i args|i cb|i cb]; cbn; try by left.
  - destruct (decide (id = i)) as [->|Hne].
    + right. right. right. by rewrite lookup_delete_eq.
    + left. by rewrite lookup_delete_ne.
  - left. by destruct (state st !! i).
  - left. destruct (decide (id = i)) as [->|Hne].
    + rewrite lookup_insert_eq. by destruct (argSubscriptions st !! i).
    + by rewrite lookup_insert_ne.
  - destruct (decide (id = i)) as [->|Hne].
    + right. left. exists cb. rewrite lookup_insert_eq.
      by destruct (argSubscriptions st !! i).
    + left. by rewrite lookup_insert_ne.
  - destruct (argSubscriptions st !! i) as [sub|] eqn:E; [|by left].
    destruct (decide (id = i)) as [->|Hne].
    + right. right. left. exists cb. cbn. by rewrite lookup_insert_eq, E.
    + left. cbn. by rewrite lookup_insert_ne.
Qed.

Lemma state_after_subscribeToArgs (id : string) (cb : Listener) (st : Stores) :
  state_of (subscribeToArgs id cb st) = effect_on_stores (CSubscribeToArgs id cb) st.
Proof.
  rewrite subscribeToArgs_run. cbn zeta.
  case_bool_decide; [|done]. by destruct (listener_failure _ _).
Qed.

Lemma listeners_NoDup_run (calls : list CtxCall) (st : Stores) (id : string) :
  NoDup (listeners st id) → NoDup (listeners (run_calls calls st) id).
Proof.
  revert st. induction calls as [|c calls IH]; intros st Hst; [done|].
  cbn. rewrite Reachable.perform_state. apply IH.
  destruct (listeners_effect_other c st id) as [Heq|[[cb Heq]|[[cb Heq]|Heq]]];
    rewrite Heq.
  - done.
  - by apply set_add_NoDup.
  - by apply set_delete_NoDup.
  - apply NoDup_nil_2.
Qed.

(** X8.  In the stores any sequence of calls has produced, no listener is
    registered twice under an id, however often it subscribed; so one
    broadcast calls each listener of the id exactly once. *)
Theorem listeners_registered_once (calls : list CtxCall) (id : string) (args : list Value) :
  let st := run_calls calls initial in
  NoDup (listeners st id)
  ∧ NoDup (invoked (events_of (updateArgs id args st)))
  ∧ ∀ cb, cb ∈ listeners st id ↔ (cb, args) ∈ invoked (events_of (updateArgs id args st)).
Proof.
  cbn zeta.
  assert (NoDup (listeners (run_calls calls initial) id)) as Hnd.
  { apply listeners_NoDup_run. unfold listeners. cbn. rewrite lookup_empty. apply NoDup_nil_2. }
  split; [done|]. rewrite updateArgs_run. unfold events_of. cbn [snd]. split.
  - rewrite ArgumentChannel.invoked_broadcast. apply NoDup_fmap_2; [|done].
    by intros x y [= ->].
  - intros cb. rewrite elem_of_invoked_broadcast. split; [done|by intros [? _]].
Qed.

(** X9.  The function [subscribeToArgs (id, cb)] returns, called on whatever
    the stores have become: it removes [cb] from the listeners of [id] and
    keeps the others in their order, so that later broadcasts do not reach
    [cb]; it does nothing when the ArgSubscription is gone; and calling it
    again changes nothing. *)
Theorem argUnsubscribe_removes (id : string) (cb : Listener) (st : Stores)
    (unsub : M Stores unit) :
  outcome_of (subscribeToArgs id cb st) = Returned unsub →
  ∀ st' : Stores,
    let st1 := state_of (unsub st') in
    outcome_of (unsub st') = Returned tt
    ∧ events_of (unsub st') = []
    ∧ listeners st1 id = filter (λ other, other ≠ cb) (listeners st' id)
    ∧ (∀ args a, (cb, a) ∉ invoked (events_of (updateArgs id args st1)))
    ∧ (argSubscriptions st' !! id = None → st1 = st')
    ∧ state_of (unsub st1) = st1.
Proof.
  intros Hret.
  assert (unsub = argUnsubscribe id cb) as ->.
  { rewrite subscribeToArgs_run in Hret. cbn zeta in Hret.
    case_bool_decide; cbn in Hret; [destruct (listener_failure _ _)|]; congruence. }
  intros st'. cbn zeta.
  split; [by rewrite argUnsubscribe_run|]. split; [by rewrite argUnsubscribe_run|].
  split; [apply listeners_after_argUnsubscribe|]. split; [|split].
  - intros args a. rewrite updateArgs_run. unfold events_of. cbn [snd].
    rewrite elem_of_invoked_broadcast, listeners_after_argUnsubscribe.
    intros [Hin _]. by apply set_delete_not_elem in Hin.
  - intros E. rewrite argUnsubscribe_run. unfold state_of. cbn. by rewrite E.
  - rewrite !argUnsubscribe_run. unfold state_of. cbn [fst snd].
    destruct (argSubscriptions st' !! id) as [sub|] eqn:E; [|by rewrite E].
    cbn. rewrite lookup_insert_eq. apply stores_eq; cbn; try done.
    rewrite insert_insert_eq. unfold set_argNotifiers. cbn.
    change (filter (λ y, y ≠ cb) (set_delete cb (argNotifiers sub)))
      with (set_delete cb (set_delete cb (argNotifiers sub))).
    by rewrite (set_delete_absent cb (set_delete cb _)) by apply set_delete_not_elem.
Qed.

(** X10.  Subscribing a listener that was not registered and calling the
    returned function at once puts the listeners of the id back as they
    were.  If the ArgSubscription existed the stores are back as they were;
    if it did not, an ArgSubscription without args and listeners stays
    behind: the returned function never deletes the entry. *)
Theorem subscribeToArgs_round_trip (id : string) (cb : Listener) (st : Stores)
    (unsub : M Stores unit) :
  cb ∉ listeners st id →
  outcome_of (subscribeToArgs id cb st) = Returned unsub →
  let st2 := state_of (unsub (state_of (subscribeToArgs id cb st))) in
  listeners st2 id = listeners st id
  ∧ (is_Some (argSubscriptions st !! id) → st2 = st)
  ∧ (argSubscriptions st !! id = None →
       argSubscriptions st2 !! id
       = Some {| sub_id := id; sub_args := []; argNotifiers := [] |}).
Proof.
  intros Hcb Hret.
  assert (unsub = argUnsubscribe id cb) as ->.
  { rewrite subscribeToArgs_run in Hret. cbn zeta in Hret.
    case_bool_decide; cbn in Hret; [destruct (listener_failure _ _)|]; congruence. }
  cbn zeta. split; [|split].
  - rewrite listeners_after_argUnsubscribe, ArgumentChannel.listeners_after_subscribeToArgs.
    by apply set_delete_set_add.
  - intros [sub E]. rewrite state_after_subscribeToArgs.
    rewrite argUnsubscribe_run. unfold state_of. cbn [fst snd].
    cbn [effect_on_stores with_argSubscriptions argSubscriptions].
    rewrite lookup_insert_eq, E.
    unfold listeners in Hcb. rewrite E in Hcb. cbn in Hcb.
    apply stores_eq; cbn [with_argSubscriptions state availableHooks argSubscriptions uuid_calls];
      try done.
    rewrite insert_insert_eq.
    cbn [found_or_empty default set_argNotifiers argNotifiers sub_id sub_args].
    rewrite set_delete_set_add by done.
    apply insert_id. rewrite E. by destruct sub.
  - intros E. rewrite state_after_subscribeToArgs.
    rewrite argUnsubscribe_run. unfold state_of. cbn [fst snd].
    cbn [effect_on_stores with_argSubscriptions argSubscriptions].
    rewrite lookup_insert_eq, E.
    cbn [with_argSubscriptions argSubscriptions].
    rewrite lookup_insert_eq.
    cbn [found_or_empty default set_argNotifiers argNotifiers sub_id sub_args].
    by rewrite (set_delete_set_add cb []) by apply not_elem_of_nil.
Qed.

(** X11.  When the catch-up call of [subscribeToArgs] throws, the exception
    reaches the caller, who gets no function to unsubscribe with, and the
    listener stays registered: the next broadcast calls it again. *)
Theorem subscribeToArgs_catch_up_throws (id : string) (cb : Listener) (st : Stores)
    (sub : ArgSubscription) (err : Value) :
  argSubscriptions st !! id = Some sub →
  sub_args sub ≠ [] →
  listener_failure cb (sub_args sub) = Some err →
  let r := subscribeToArgs id cb st in
  outcome_of r = Thrown err
  ∧ events_of r = [EListener cb (sub_args sub)]
  ∧ cb ∈ listeners (state_of r) id
  ∧ ∀ args, (cb, args) ∈ invoked (events_of (updateArgs id args (state_of r))).
Proof.
  intros E Hargs Hfail. cbn zeta.
  assert (cb ∈ listeners (state_of (subscribeToArgs id cb st)) id) as Hin.
  { rewrite ArgumentChannel.listeners_after_subscribeToArgs.
    apply ArgumentChannel.elem_of_set_add. }
  split; [|split; [|split; [done|]]].
  - rewrite subscribeToArgs_run, E. cbn. rewrite bool_decide_true, Hfail; [done|].
    destruct (sub_args sub); [done|cbn; lia].
  - rewrite subscribeToArgs_run, E. cbn. rewrite bool_decide_true; [done|].
    destruct (sub_args sub); [done|cbn; lia].
  - intros args. rewrite updateArgs_run. unfold events_of at 1. cbn [snd].
    by apply elem_of_invoked_broadcast.
Qed.

(** X12.  The cleanup the provider runs when it unmounts empties the
    Registry Store and nothing else: AvailableHooks and the ArgSubscriptions
    are kept, nothing is logged and nobody is notified.  From then on every
    [updateState] is ignored and [getState] is [undefined] for every id. *)
Theorem provider_unmount_clears_registry (st : Stores) :
  let r := provider_unmount st in
  outcome_of r = Returned tt
  ∧ events_of r = []
  ∧ state (state_of r) = ∅
  ∧ availableHooks (state_of r) = availableHooks st
  ∧ argSubscriptions (state_of r) = argSubscriptions st
  ∧ ∀ id patch,
      updateState id patch (state_of r) = (Returned tt, state_of r, [])
      ∧ outcome_of (getState id (state_of r)) = Returned None.
Proof.
  cbn zeta. unfold provider_unmount, mbind, M_bind, bind, get.
  rewrite forEach_delete. unfold outcome_of, events_of, state_of. cbn [fst snd].
  assert (foldl (λ m' id, delete id m') (state st) (elements (dom (state st))) = ∅) as Hempty.
  { apply map_eq. intros k. rewrite foldl_delete_lookup, lookup_empty.
    case_bool_decide as Hk; [done|].
    apply not_elem_of_dom. by rewrite <- elem_of_elements. }
  split; [done|]. split; [done|]. split; [done|]. split; [done|]. split; [done|].
  intros id patch. split.
  - apply updateState_absent. cbn. by rewrite Hempty.
  - rewrite getState_run. cbn. by rewrite Hempty.
Qed.

Lemma state_effect_keys (call : CtxCall) (st : Stores) (id : string) :
  is_Some (state (effect_on_stores call st) !! id) →
  is_Some (state st !! id)
  ∨ (∃ notify, call = CSubscribe notify ∧ id = randomUUID (uuid_calls st)).
Proof.
  destruct call as [notify|i|i value|i|i f|i args|i cb|i cb]; cbn; try by left.
  - rewrite lookup_insert. case_decide; [right; by exists notify|by left].
  - rewrite lookup_delete. case_decide; [by intros [? [=]]|by left].
  - destruct (state st !! i) as [entry|] eqn:E; [|by left]. cbn.
    rewrite lookup_insert. case_decide; [subst; left; by rewrite E|by left].
  - destruct (argSubscriptions st !! i); by left.
Qed.

Lemma registry_keys_run (calls : list CtxCall) (st : Stores) (id : string) :
  is_Some (state (run_calls calls st) !! id) →
  is_Some (state st !! id) ∨ id ∈ subscribed_ids calls st.
Proof.
  revert st. induction calls as [|c calls IH]; intros st; [by left|].
  cbn. rewrite Reachable.perform_state. intros Hid.
  destruct (IH _ Hid) as [Hhere|Hlater]; [|right; apply elem_of_app; by right].
  destruct (state_effect_keys _ _ _ Hhere) as [?|(notify & -> & ->)]; [by left|].
  right. apply elem_of_app. left. rewrite subscribe_run. cbn. apply list_elem_of_here.
Qed.

(** X13.  In the stores any sequence of calls has produced, every
    RegistryEntry is filed under an id that some [subscribe] of the sequence
    returned: no other operation creates a RegistryEntry. *)
Theorem registry_entries_were_subscribed (calls : list CtxCall) (id : string) :
  is_Some (state (run_calls calls initial) !! id) → id ∈ subscribed_ids calls initial.
Proof.
  intros Hid. destruct (registry_keys_run _ _ _ Hid) as [[e He]|Hin]; [|done].
  cbn in He. by rewrite lookup_empty in He.
Qed.

End Laws.
#[local] Existing Instance Demo.host.

Lemma argUnsubscribe_removes_witness :
  let st := run_calls [CSubscribeToArgs "a" (SetArgs 0); CSubscribeToArgs "a" (SetArgs 1)] initial in
  outcome_of (subscribeToArgs "a" (SetArgs 0) initial) = Returned (argUnsubscribe "a" (SetArgs 0))
  ∧ listeners (state_of (argUnsubscribe "a" (SetArgs 0) st)) "a" = [SetArgs 1].
Proof.
  cbn zeta. split; [reflexivity|].
  destruct (argUnsubscribe_removes "a" (SetArgs 0) initial (argUnsubscribe "a" (SetArgs 0))
              eq_refl
              (run_calls [CSubscribeToArgs "a" (SetArgs 0); CSubscribeToArgs "a" (SetArgs 1)]
                 initial)) as (_ & _ & Hls & _).
  rewrite Hls. vm_compute. reflexivity.
Defined.

Lemma subscribeToArgs_round_trip_witness :
  (SetArgs 0 ∉ listeners initial "a")
  ∧ listeners (state_of (argUnsubscribe "a" (SetArgs 0)
                           (state_of (subscribeToArgs "a" (SetArgs 0) initial)))) "a" = []
  ∧ argSubscriptions (state_of (argUnsubscribe "a" (SetArgs 0)
                                  (state_of (subscribeToArgs "a" (SetArgs 0) initial)))) !! "a"
    = Some {| sub_id := "a"; sub_args := []; argNotifiers := [] |}.
Proof.
  assert (SetArgs 0 ∉ listeners initial "a") as Hfresh by (vm_compute; apply not_elem_of_nil).
  split; [exact Hfresh|].
  destruct (subscribeToArgs_round_trip "a" (SetArgs 0) initial (argUnsubscribe "a" (SetArgs 0))
              Hfresh eq_refl) as (Hls & _ & Hleft).
  split; [exact Hls|]. apply Hleft. reflexivity.
Defined.

Lemma subscribeToArgs_catch_up_throws_witness :
  let st := run_calls [CUpdateArgs "a" [VNum 1]] initial in
  outcome_of (subscribeToArgs "a" (OtherListener 1) st) = Thrown (VError "boom")
  ∧ OtherListener 1 ∈ listeners (state_of (subscribeToArgs "a" (OtherListener 1) st)) "a".
Proof.
  cbn zeta.
  destruct (subscribeToArgs_catch_up_throws "a" (OtherListener 1)
              (run_calls [CUpdateArgs "a" [VNum 1]] initial)
              {| sub_id := "a"; sub_args := [VNum 1]; argNotifiers := [] |}
              (VError "boom")) as (Hout & _ & Hin & _);
    [vm_compute; reflexivity|discriminate|reflexivity|].
  split; [exact Hout|exact Hin].
Defined.

Lemma registry_entries_were_subscribed_witness :
  let calls := [CSubscribe (ForceUpdate 0); CUpdateArgs "x" []; CSubscribe (ForceUpdate 1);
                CUnsubscribe "0"] in
  is_Some (state (run_calls calls initial) !! "1") ∧ "1" ∈ subscribed_ids calls initial.
Proof.
  cbn zeta.
  assert (is_Some (state (run_calls [CSubscribe (ForceUpdate 0); CUpdateArgs "x" [];
                                     CSubscribe (ForceUpdate 1); CUnsubscribe "0"] initial)
                     !! "1")) as Hsome by (vm_compute; by eexists).
  split; [exact Hsome|]. exact (registry_entries_were_subscribed _ _ Hsome).
Defined.

End ChannelLaws.

(** ** Further laws of the Execution Unit *)

Module ExecutorLaws.
Import Provider Runs Facts StoreLaws Executor Rerender.

Section Laws.
Context {host : Host}.

Lemma render_pass_starts {S : Type} (ctx : RemoteHookContextType S) (props : Props)
    (fb : Fiber S) (s : S) :
  ∃ rest, events_of (render_pass ctx props fb s)
          = EInvokeHook (hookFunction props) (args fb) :: rest.
Proof.
  destruct (bind_events_prefix (render props fb)
              (λ '(output, hookResult),
                 fb' ← commit ctx props fb hookResult; mret (output, fb')) s)
    as [rest Hrest].
  exists rest. unfold render_pass. rewrite Hrest. by rewrite ExecutionUnit.render_run.
Qed.

Lemma mount_pass_run (props : Props) (key : nat) (cells0 : list Value) (st : Stores) (r : Value) :
  hook_body (hookFunction props) cells0 [] = Returned r →
  render_pass provider_context props (mounting key cells0) st
  = (match state st !! id props with
     | Some entry =>
         match notify_failure (entry_notify entry) with
         | Some err => Thrown err
         | None => Returned (RNull, mounted props key cells0 r)
         end
     | None => Returned (RNull, mounted props key cells0 r)
     end,
     effect_on_stores (CUpdateState (id props) {[ "hookResult" := r ]})
       (effect_on_stores (CSubscribeToArgs (id props) (SetArgs key)) st),
     EInvokeHook (hookFunction props) []
     :: (if bool_decide (0 < length (sub_args (found_or_empty (id props)
                                                   (argSubscriptions st !! id props))))
         then [EListener (SetArgs key)
                 (sub_args (found_or_empty (id props) (argSubscriptions st !! id props)))]
         else [])
     ++ match state st !! id props with
        | Some entry => [ENotify (entry_notify entry)]
        | None => []
        end).
Proof.
  intros Hret.
  unfold render_pass, mbind, M_bind, bind. rewrite ExecutionUnit.render_run.
  cbn [mounting cells args]. rewrite Hret.
  unfold commit, subscribe_effect, report_effect, result_changed, mbind, M_bind, bind.
  cbn [mounting subscription reported fiber_key cells args provider_context
       ctx_subscribeToArgs ctx_updateState].
  rewrite subscribeToArgs_run. cbn zeta.
  cbn [effect_on_stores].
  set (sub0 := found_or_empty (id props) (argSubscriptions st !! id props)).
  set (st1 := with_argSubscriptions _ st).
  assert (state st1 = state st) as Hstate by done.
  destruct (state st !! id props) as [entry|] eqn:E.
  - assert (state st1 !! id props = Some entry) as E1 by by rewrite Hstate.
    rewrite E1.
    case_bool_decide; cbn [listener_failure mret M_ret ret];
      rewrite (updateState_present _ _ _ _ E1);
      destruct (notify_failure (entry_notify entry)); reflexivity.
  - assert (state st1 !! id props = None) as E1 by by rewrite Hstate.
    rewrite E1.
    case_bool_decide; cbn [listener_failure mret M_ret ret];
      rewrite (updateState_absent _ _ _ E1); reflexivity.
Qed.

(** X14.  When the hook returns what was reported at the previous commit
    (the same by [Object.is]) and the unit is subscribed under its id, the
    render calls the hook and nothing else: no operation of the context is
    called, whatever the context, so nothing is written and nobody is
    notified, and the fiber is as it was. *)
Theorem executor_unchanged_result_silent {S : Type} (ctx : RemoteHookContextType S)
    (props : Props) (fb : Fiber S) (s : S) (hookResult : Value) (unsubscribe : M S unit) :
  hook_body (hookFunction props) (cells fb) (args fb) = Returned hookResult →
  reported fb = Some (hookResult, id props) →
  subscription fb = Some (id props, unsubscribe) →
  render_pass ctx props fb s
  = (Returned (RNull, fb), s, [EInvokeHook (hookFunction props) (args fb)]).
Proof.
  intros Hret Hrep Hsub.
  unfold render_pass, mbind, M_bind, bind. rewrite ExecutionUnit.render_run, Hret.
  unfold commit, subscribe_effect, report_effect, result_changed, object_is,
    mbind, M_bind, bind.
  rewrite Hsub, Hrep, !bool_decide_true by done. cbn.
  destruct fb. cbn in *. by rewrite Hsub, Hrep.
Qed.

(** X15.  The first render of a unit calls the hook with no argument; its
    commit then subscribes the unit's [setArgs] to the Argument Channel and
    after that reports the result with [updateState], in this order.  The
    cleanup run at unmount unsubscribes that same listener. *)
Theorem executor_mount_sequence {S : Type} (id0 : string) (props : Props) (key : nat)
    (cells0 : list Value) (s : S) (r : Value) :
  hook_body (hookFunction props) cells0 [] = Returned r →
  ∃ fb',
    render_pass (recording_context id0) props (mounting key cells0) s
    = (Returned (RNull, fb'), s,
       [EInvokeHook (hookFunction props) [];
        ECtx (CSubscribeToArgs (id props) (SetArgs key));
        ECtx (CUpdateState (id props) {[ "hookResult" := r ]})])
    ∧ args fb' = []
    ∧ reported fb' = Some (r, id props)
    ∧ unmount fb' s = (Returned tt, s, [ECtx (CArgUnsubscribe (id props) (SetArgs key))]).
Proof.
  intros Hret. eexists.
  unfold render_pass, mbind, M_bind, bind. rewrite ExecutionUnit.render_run.
  cbn [mounting cells args]. rewrite Hret. cbn. done.
Qed.

(** X16.  A unit mounted after arguments were sent for its id: its first
    render calls the hook without arguments, the subscription hands the
    stored arguments to [setArgs] during the commit, and the render that
    follows calls the hook with them. *)
Theorem executor_catches_up (props : Props) (key : nat) (cells0 : list Value)
    (st : Stores) (sub : ArgSubscription) (r : Value) :
  argSubscriptions st !! id props = Some sub →
  sub_args sub ≠ [] →
  hook_body (hookFunction props) cells0 [] = Returned r →
  (∀ entry, state st !! id props = Some entry → notify_failure (entry_notify entry) = None) →
  let pass := render_pass provider_context props (mounting key cells0) st in
  ∃ fb',
    outcome_of pass = Returned (RNull, fb')
    ∧ (∃ rest, events_of pass
               = EInvokeHook (hookFunction props) []
                 :: EListener (SetArgs key) (sub_args sub) :: rest)
    ∧ args (apply_updates (events_of pass) fb') = sub_args sub
    ∧ ∃ rest, events_of (render_pass provider_context props
                           (apply_updates (events_of pass) fb') (state_of pass))
              = EInvokeHook (hookFunction props) (sub_args sub) :: rest.
Proof.
  intros E Hargs Hret Hnotify. cbn zeta.
  rewrite (mount_pass_run _ _ _ _ _ Hret), E.
  change (found_or_empty (id props) (Some sub)) with sub.
  assert (0 < length (sub_args sub)) as Hlen
    by (destruct (sub_args sub); [done|cbn; lia]).
  rewrite bool_decide_true by exact Hlen.
  unfold outcome_of, events_of, state_of. cbn [fst snd].
  exists (mounted props key cells0 r).
  assert (apply_updates
            (EInvokeHook (hookFunction props) []
             :: [EListener (SetArgs key) (sub_args sub)]
             ++ match state st !! id props with
                | Some entry => [ENotify (entry_notify entry)]
                | None => []
                end) (mounted props key cells0 r)
          = setArgs (sub_args sub) (mounted props key cells0 r)) as Happly.
  { unfold apply_updates, last_setArgs. cbn. rewrite bool_decide_true by done.
    by destruct (state st !! id props). }
  split; [|split; [by eexists|]].
  - destruct (state st !! id props) as [entry|] eqn:Es; [|done].
    by rewrite (Hnotify entry).
  - rewrite Happly. split; [done|].
    apply (render_pass_starts provider_context props
             (setArgs (sub_args sub) (mounted props key cells0 r))).
Qed.

(** X17.  Mounting a unit whose [setArgs] is not yet registered and then
    unmounting it puts the listeners of its id back as they were; in
    between, the listener is registered. *)
Theorem executor_mount_unmount (props : Props) (key : nat) (cells0 : list Value)
    (st : Stores) (output : Rendered) (fb' : Fiber Stores) :
  SetArgs key ∉ listeners st (id props) →
  outcome_of (render_pass provider_context props (mounting key cells0) st)
  = Returned (output, fb') →
  let st1 := state_of (render_pass provider_context props (mounting key cells0) st) in
  SetArgs key ∈ listeners st1 (id props)
  ∧ unmount fb' st1 = (Returned tt, state_of (unmount fb' st1), [])
  ∧ listeners (state_of (unmount fb' st1)) (id props) = listeners st (id props).
Proof.
  intros Hfresh Hout. cbn zeta.
  destruct (hook_body (hookFunction props) cells0 []) as [r|err] eqn:Hret.
  2:{ unfold render_pass, mbind, M_bind, bind in Hout.
      rewrite ExecutionUnit.render_run in Hout. cbn [mounting cells args] in Hout.
      rewrite Hret in Hout. discriminate. }
  rewrite (mount_pass_run _ _ _ _ _ Hret) in *.
  rewrite state_of_triple. unfold outcome_of in Hout. cbn [fst snd] in Hout.
  assert (fb' = mounted props key cells0 r) as ->.
  { destruct (state st !! id props) as [entry|]; [destruct (notify_failure _)|]; congruence. }
  set (st1 := effect_on_stores (CSubscribeToArgs (id props) (SetArgs key)) st).
  assert (listeners (effect_on_stores (CUpdateState (id props) {[ "hookResult" := r ]}) st1)
            (id props) = set_add (SetArgs key) (listeners st (id props))) as Hls.
  { unfold listeners. cbn [effect_on_stores].
    destruct (state st1 !! id props); cbn; rewrite lookup_insert_eq;
      by destruct (argSubscriptions st !! id props). }
  split; [rewrite Hls; apply ArgumentChannel.elem_of_set_add|].
  change (unmount (mounted props key cells0 r))
    with (argUnsubscribe (id props) (SetArgs key)).
  split; [by rewrite argUnsubscribe_run|].
  rewrite listeners_after_argUnsubscribe, Hls. by apply set_delete_set_add.
Qed.

End Laws.

#[local] Existing Instance Demo.host.

Lemma executor_unchanged_result_silent_witness :
  let props := {| id := "0"; hookFunction := 7 |} in
  let fb : Fiber Stores :=
    {| fiber_key := 0; args := [VStr "a"]; cells := [];
       subscription := Some ("0", argUnsubscribe "0" (SetArgs 0));
       reported := Some (VStr "a", "0") |} in
  render_pass provider_context props fb initial
  = (Returned (RNull, fb), initial, [EInvokeHook 7 [VStr "a"]]).
Proof.
  cbn zeta.
  exact (executor_unchanged_result_silent (host := Demo.host) provider_context
           {| id := "0"; hookFunction := 7 |}
           {| fiber_key := 0; args := [VStr "a"]; cells := [];
              subscription := Some ("0", argUnsubscribe "0" (SetArgs 0));
              reported := Some (VStr "a", "0") |}
           initial (VStr "a") (argUnsubscribe "0" (SetArgs 0)) eq_refl eq_refl eq_refl).
Defined.

Lemma executor_mount_sequence_witness :
  ∃ fb',
    render_pass (recording_context "") {| id := "0"; hookFunction := 7 |} (mounting 0 []) tt
    = (Returned (RNull, fb'), tt,
       [EInvokeHook 7 [];
        ECtx (CSubscribeToArgs "0" (SetArgs 0));
        ECtx (CUpdateState "0" {[ "hookResult" := VUndefined ]})]).
Proof.
  destruct (executor_mount_sequence (host := Demo.host) "" {| id := "0"; hookFunction := 7 |} 0 [] tt VUndefined
              eq_refl) as (fb' & Hpass & _).
  exists fb'. exact Hpass.
Defined.

Lemma executor_catches_up_witness :
  let props := {| id := "0"; hookFunction := 7 |} in
  let st := run_calls [CSubscribe (ForceUpdate 0); CUpdateArgs "0" [VStr "a"]] initial in
  let pass := render_pass provider_context props (mounting 0 []) st in
  ∃ fb',
    outcome_of pass = Returned (RNull, fb')
    ∧ args (apply_updates (events_of pass) fb') = [VStr "a"].
Proof.
  cbn zeta.
  destruct (executor_catches_up (host := Demo.host) {| id := "0"; hookFunction := 7 |} 0 []
              (run_calls [CSubscribe (ForceUpdate 0); CUpdateArgs "0" [VStr "a"]] initial)
              {| sub_id := "0"; sub_args := [VStr "a"]; argNotifiers := [] |} VUndefined)
    as (fb' & Hout & _ & Hargs & _).
  - vm_compute. reflexivity.
  - discriminate.
  - reflexivity.
  - intros entry Hentry. vm_compute in Hentry. injection Hentry as <-. reflexivity.
  - exists fb'. split; [exact Hout|exact Hargs].
Defined.

Lemma executor_mount_unmount_witness :
  let props := {| id := "0"; hookFunction := 7 |} in
  let st := run_calls [CSubscribe (ForceUpdate 0)] initial in
  (SetArgs 0 ∉ listeners st "0")
  ∧ listeners (state_of (unmount (mounted props 0 [] VUndefined)
                           (state_of (render_pass provider_context props (mounting 0 []) st))))
              "0"
    = listeners st "0".
Proof.
  cbn zeta.
  assert (SetArgs 0 ∉ listeners (run_calls [CSubscribe (ForceUpdate 0)] initial) "0") as Hfresh
    by (vm_compute; apply not_elem_of_nil).
  split; [exact Hfresh|].
  destruct (executor_mount_unmount (host := Demo.host) {| id := "0"; hookFunction := 7 |} 0 []
              (run_calls [CSubscribe (ForceUpdate 0)] initial)
              RNull (mounted {| id := "0"; hookFunction := 7 |} 0 [] VUndefined)
              Hfresh) as (_ & _ & Hls).
  - vm_compute. reflexivity.
  - exact Hls.
Defined.

End ExecutorLaws.

(** ** The pass-through hook *)

Module RemoteHookLaws.
Import RemoteHooks.

(** X18.  The pass-through hook never returns a falsy value: a truthy
    argument comes back as it is, and every falsy one (the empty string, a
    missing argument) is replaced by ["default"]. *)
Theorem useAsyncPassThrough_truthy (value : Value) :
  truthy (useAsyncPassThrough value) = true
  ∧ (truthy value = true → useAsyncPassThrough value = value)
  ∧ (truthy value = false → useAsyncPassThrough value = VStr "default").
Proof.
  unfold useAsyncPassThrough, or_else.
  destruct (truthy value) eqn:Ht; repeat split; done.
Qed.

Lemma useAsyncPassThrough_truthy_witness :
  truthy (VStr "") = false ∧ useAsyncPassThrough (VStr "") = VStr "default"
  ∧ truthy (VStr "b") = true ∧ useAsyncPassThrough (VStr "b") = VStr "b".
Proof.
  split; [reflexivity|]. split.
  - apply (proj2 (proj2 (useAsyncPassThrough_truthy (VStr "")))). reflexivity.
  - split; [reflexivity|].
    apply (proj1 (proj2 (useAsyncPassThrough_truthy (VStr "b")))). reflexivity.
Defined.

End RemoteHookLaws.
